(** * The Pair attribute value of ns-3 (src/core/model/pair.h)

    A shallow embedding of [PairValue<A, B>], [PairChecker] and the
    [MakePairChecker] factories, and the properties of their text
    serialization, copying and naming.

    Layout of the development:
    - [Stream]: the part of [std::istringstream] that
      [PairValue::DeserializeFromString] uses (formatted extraction of a
      [std::string]), and its relation to whitespace tokenization;
    - [Store]: reference-counted objects as a store of attribute values,
      with the small error-and-state monad the member functions run in;
    - [Pair]: the member functions of [PairValue] and the factories;
    - [Scenario]: sequences of calls, and the states a client can reach;
    - [Demo]: a client program with three value classes;
    - the theorems, then their instances on the client program. *)

From stdpp Require Import base list strings.
From Stdlib Require Import Ascii Lia.
From Stdlib Require DecimalString.

(** ** Formatted extraction from a string stream *)

Module Stream.

(** [std::isspace] in the "C" locale: space, and the control characters
    HT, LF, VT, FF, CR (codes 9 to 13). *)
Definition isspace (c : ascii) : bool :=
  let n := nat_of_ascii c in
  Nat.eqb n 32 || (Nat.leb 9 n && Nat.leb n 13).

(** What the sentry of a formatted input function does with [skipws] set:
    drop leading whitespace. *)
Fixpoint skipws (s : string) : string :=
  match s with
  | EmptyString => EmptyString
  | String c r => if isspace c then skipws r else s
  end.

(** The characters [operator>>] stores: the longest prefix without
    whitespace, together with what stays in the buffer. *)
Fixpoint word (s : string) : string * string :=
  match s with
  | EmptyString => (EmptyString, EmptyString)
  | String c r =>
      if isspace c then (EmptyString, s)
      else let '(w, rest) := word r in (String c w, rest)
  end.

(** The stream: the unread characters and the two state bits that
    extraction can set.  [badbit] is never set on a string buffer. *)
Record istringstream := Iss {
  buf : string;
  eofbit : bool;
  failbit : bool
}.

(** [std::istringstream iss(value)] *)
Definition istringstream_of (value : string) : istringstream :=
  {| buf := value; eofbit := false; failbit := false |}.

Definition good (iss : istringstream) : bool :=
  negb (eofbit iss || failbit iss).

Definition is_empty (s : string) : bool :=
  match s with EmptyString => true | String _ _ => false end.

(** [iss >> value] for a [std::string value].  The sentry fails when the
    stream is not [good()], or when skipping whitespace reaches the end of
    the buffer; in both cases [failbit] is set and [value] KEEPS ITS OLD
    CONTENTS ([str.erase()] only runs after a successful sentry).
    Otherwise [value] receives the next word, and [eofbit] is set when the
    word ran up to the end of the buffer. *)
Definition extract (iss : istringstream) (value : string)
  : istringstream * string :=
  if good iss then
    match skipws (buf iss) with
    | EmptyString =>
        ({| buf := EmptyString; eofbit := true; failbit := true |}, value)
    | String c r =>
        let '(w, rest) := word (String c r) in
        ({| buf := rest; eofbit := is_empty rest; failbit := false |}, w)
    end
  else
    ({| buf := buf iss; eofbit := eofbit iss; failbit := true |}, value).

(** The two words [DeserializeFromString] hands to the component checkers:
    it declares the stream over [value] and extracts into [value] twice. *)
Definition read_two (value : string) : string * string :=
  let iss := istringstream_of value in
  let '(iss, value) := extract iss value in
  let first := value in
  let '(_, value) := extract iss value in
  (first, value).

(** *** Whitespace tokenization, as the specification words it

    Split on runs of whitespace, dropping leading and trailing whitespace.
    [scan acc s] carries the token under construction. *)
Fixpoint scan (acc : string) (s : string) : list string :=
  match s with
  | EmptyString => if is_empty acc then [] else [acc]
  | String c r =>
      if isspace c
      then (if is_empty acc then scan EmptyString r
            else acc :: scan EmptyString r)
      else scan (acc +:+ String c EmptyString) r
  end.

Definition tokens (s : string) : list string := scan EmptyString s.

(** A token: not empty, no whitespace inside. *)
Fixpoint no_space (s : string) : bool :=
  match s with
  | EmptyString => true
  | String c r => negb (isspace c) && no_space r
  end.

Definition is_token (s : string) : bool := negb (is_empty s) && no_space s.

End Stream.

(** ** Objects, smart pointers and the store *)

Module Store.

(** [Ptr<T>]: a smart pointer is either [nullptr] ([None]) or refers to an
    object. *)
Definition Ptr (T : Type) : Type := option T.

(** The classes derived from [AttributeValue] that a program defines.
    [derives c d] holds when [c] is [d] or has [d] among its bases, which
    is when [dynamic_cast<d*>] succeeds on an object whose dynamic class is
    [c].  [typeid_name c] is [typeid(Ptr<c>).name()] and
    [typeid_pair_name a b] is [typeid(std::pair<Ptr<a>, Ptr<b>>).name()]:
    both are fixed by the C++ implementation, not by this code. *)
Class ObjectModel := {
  cls : Type;
  payload : Type;
  derives : cls -> cls -> bool;
  typeid_name : cls -> string;
  typeid_pair_name : cls -> cls -> string
}.

Section WithObjects.
Context `{OM : ObjectModel}.

(** An attribute value object: its dynamic class and its data members. *)
Record AttributeValue := Obj {
  dyn : cls;
  data : payload
}.

(** Objects live in a store; [Create<T>] appends a new one and a pointer is
    the index of its object.  Reference counts are not modelled: an object
    that nobody refers to any more stays where it is. *)
Definition loc := nat.
Definition heap := list AttributeValue.

(** A member function either returns, with the store it leaves, or
    dereferences a pointer that refers to no object ([Ptr::operator->] on
    [nullptr]: an assertion failure in debug builds, undefined otherwise). *)
Inductive outcome (X : Type) : Type :=
| Done (x : X) (h : heap)
| Fault.
Arguments Done {X} x h.
Arguments Fault {X}.

Definition M (X : Type) : Type := heap -> outcome X.

Definition ret {X} (x : X) : M X := fun h => Done x h.

Definition bind {X Y} (m : M X) (k : X -> M Y) : M Y :=
  fun h => match m h with
           | Done x h' => k x h'
           | Fault => Fault
           end.

Definition fault {X} : M X := fun _ => Fault.

(** [new T(...)] wrapped in a [Ptr]. *)
Definition alloc (o : AttributeValue) : M loc :=
  fun h => Done (length h) (h ++ [o]).

(** [p->...]: the object behind [p]. *)
Definition deref (p : Ptr loc) : M AttributeValue :=
  fun h => match p with
           | None => Fault
           | Some l => match h !! l with
                       | Some o => Done o h
                       | None => Fault
                       end
           end.

(** [DynamicCast<T>(p)]: [p] itself when the object is a [T], else
    [nullptr]; [nullptr] casts to [nullptr]. *)
Definition DynamicCast (T : cls) (p : Ptr loc) : M (Ptr loc) :=
  fun h => match p with
           | None => Done None h
           | Some l => match h !! l with
                       | Some o => Done (if derives (dyn o) T then Some l else None) h
                       | None => Fault
                       end
           end.

(** The value a computation returns, when it returns. *)
Definition result {X} (r : outcome X) : option X :=
  match r with Done x _ => Some x | Fault => None end.

End WithObjects.

Arguments Done {OM X} x h.
Arguments Fault {OM X}.

Declare Scope pair_monad_scope.
Delimit Scope pair_monad_scope with M.
Notation "x <- m ;; k" := (bind m (fun x => k))
  (at level 100, m at next level, right associativity) : pair_monad_scope.

End Store.

(** ** PairValue, PairChecker and the factories *)

Module Pair.
Import Stream Store.
Local Open Scope pair_monad_scope.

Section WithObjects.
Context `{OM : ObjectModel}.

(** An [AttributeChecker] object, as far as this header uses one:
    - [CreateValidValue (StringValue s)]: a new value object, or [nullptr]
      when the checker rejects [s];
    - [GetValueTypeName ()] and [GetUnderlyingTypeInformation ()];
    - [pair_part]: [None] for a checker that is not an [ns3::PairChecker];
      for an [internal::PairChecker<_, _>] its two data members
      [(m_firstchecker, m_secondchecker)], each possibly [nullptr].
    Checkers are shared and constant once built, so they are values here. *)
#[warnings="-register-all"] Inductive AttributeChecker : Type := Checker {
  CreateValidValue : string -> Ptr AttributeValue;
  GetValueTypeName : string;
  GetUnderlyingTypeInformation : string;
  pair_part : option (Ptr AttributeChecker * Ptr AttributeChecker)
}.

(** [DynamicCast<const PairChecker>(checker)] *)
Definition as_PairChecker (checker : Ptr AttributeChecker) : Ptr AttributeChecker :=
  match checker with
  | None => None
  | Some c => match pair_part c with
              | Some _ => Some c
              | None => None
              end
  end.

(** [PairChecker<A, B>::GetCheckers]: the pair of the two members. *)
Definition GetCheckers (pchecker : AttributeChecker)
  : Ptr AttributeChecker * Ptr AttributeChecker :=
  match pair_part pchecker with
  | Some cs => cs
  | None => (None, None)
  end.

(** [PairChecker<A, B>::SetCheckers]: both members are assigned. *)
Definition SetCheckers (pchecker : AttributeChecker)
    (firstchecker secondchecker : Ptr AttributeChecker) : AttributeChecker :=
  {| CreateValidValue := CreateValidValue pchecker;
     GetValueTypeName := GetValueTypeName pchecker;
     GetUnderlyingTypeInformation := GetUnderlyingTypeInformation pchecker;
     pair_part := Some (firstchecker, secondchecker) |}.

(** [p->...] on a pointer to a checker. *)
Definition deref_checker (p : Ptr AttributeChecker) : M AttributeChecker :=
  match p with
  | Some c => ret c
  | None => fault
  end.

(** The virtual member functions of the value classes of the program:
    [o->Copy ()] gives the new object, [o->SerializeToString (checker)] the
    text.  [simple_create] is the [CreateValidValue] that
    [MakeSimpleAttributeChecker] (attribute-helper.h) gives the checker it
    builds. *)
Class Methods := {
  v_Copy : AttributeValue -> AttributeValue;
  v_SerializeToString : AttributeValue -> Ptr AttributeChecker -> string;
  simple_create : string -> Ptr AttributeValue
}.

(** The template arguments [A] and [B] of one instantiation: the two value
    classes, what [A::Get] returns ([first_type]), the data members that
    the constructors [A()] and [A(x)] leave, and [A::Get] itself. *)
Class Template := {
  A : cls;
  B : cls;
  first_type : Type;
  second_type : Type;
  A_default : payload;
  A_from : first_type -> payload;
  A_Get : payload -> first_type;
  B_default : payload;
  B_from : second_type -> payload;
  B_Get : payload -> second_type
}.

Context `{MT : Methods} `{TP : Template}.

(** [value_type m_value]: the two pointers a [PairValue<A, B>] holds. *)
Record PairValue := MkPair {
  m_first : Ptr loc;
  m_second : Ptr loc
}.

Definition result_type : Type := first_type * second_type.

(** [PairValue()]: [m_value(std::make_pair(Create<A>(), Create<B>()))].
    C++ leaves the order of the two [Create] calls open; here, and in
    [Set] and [Copy], the first member is created first.  The theorems on
    [Set] and [Copy] do not depend on which of the two new objects comes
    first in the store. *)
Definition PairValue_default : M PairValue :=
  a <- alloc (Obj A A_default);;
  b <- alloc (Obj B B_default);;
  ret {| m_first := Some a; m_second := Some b |}.

(** [Set (value)] ([Set] is reserved, hence the underscore):
    [m_value = std::make_pair(Create<A>(value.first), Create<B>(value.second))] *)
Definition Set_ (this : PairValue) (value : result_type) : M PairValue :=
  a <- alloc (Obj A (A_from (fst value)));;
  b <- alloc (Obj B (B_from (snd value)));;
  ret {| m_first := Some a; m_second := Some b |}.

(** [PairValue(const result_type& value)]: [m_value] starts as two null
    pointers and the body calls [Set (value)]. *)
Definition PairValue_of (value : result_type) : M PairValue :=
  Set_ {| m_first := None; m_second := None |} value.

(** [Get ()]:
    [std::make_pair(m_value.first->Get(), m_value.second->Get())] *)
Definition Get (this : PairValue) : M result_type :=
  o1 <- deref (m_first this);;
  o2 <- deref (m_second this);;
  ret (A_Get (data o1), B_Get (data o2)).

(** [Copy ()]: [Create<PairValue<A, B>>()] runs the default constructor;
    the two members are replaced only when [m_value.first] is not null. *)
Definition Copy (this : PairValue) : M PairValue :=
  p <- PairValue_default;;
  match m_first this with
  | Some _ =>
      o1 <- deref (m_first this);;
      c1 <- alloc (v_Copy o1);;
      a <- DynamicCast A (Some c1);;
      o2 <- deref (m_second this);;
      c2 <- alloc (v_Copy o2);;
      b <- DynamicCast B (Some c2);;
      ret {| m_first := a; m_second := b |}
  | None => ret p
  end.

(** The object a checker returns from [CreateValidValue] is new: it is
    placed in the store when the checker accepts. *)
Definition alloc_ptr (o : Ptr AttributeValue) : M (Ptr loc) :=
  match o with
  | Some v => l <- alloc v;; ret (Some l)
  | None => ret None
  end.

(** [DeserializeFromString (value, checker)].  The result carries the
    returned [bool] and the object [*this] as the call leaves it. *)
Definition DeserializeFromString (this : PairValue) (value : string)
    (checker : Ptr AttributeChecker) : M (bool * PairValue) :=
  match as_PairChecker checker with
  | None => ret (false, this)
  | Some pchecker =>
      let iss := istringstream_of value in
      let '(iss, value) := extract iss value in
      fc <- deref_checker (fst (GetCheckers pchecker));;
      first <- alloc_ptr (CreateValidValue fc value);;
      match first with
      | None => ret (false, this)
      | Some _ =>
          firstattr <- DynamicCast A first;;
          match firstattr with
          | None => ret (false, this)
          | Some _ =>
              let '(iss, value) := extract iss value in
              sc <- deref_checker (snd (GetCheckers pchecker));;
              second <- alloc_ptr (CreateValidValue sc value);;
              match second with
              | None => ret (false, this)
              | Some _ =>
                  secondattr <- DynamicCast B second;;
                  match secondattr with
                  | None => ret (false, this)
                  | Some _ =>
                      ret (true, {| m_first := firstattr; m_second := secondattr |})
                  end
              end
          end
      end
  end.

(** [SerializeToString (checker)]: the text of the first member, one
    space, the text of the second; both get the caller's [checker]. *)
Definition SerializeToString (this : PairValue)
    (checker : Ptr AttributeChecker) : M string :=
  o1 <- deref (m_first this);;
  let s1 := v_SerializeToString o1 checker in
  o2 <- deref (m_second this);;
  let s2 := v_SerializeToString o2 checker in
  ret (s1 +:+ " " +:+ s2).

(** [MakePairChecker<A, B>()]: the name is built from the two
    [typeid(...).name()] strings; the checker starts with both members
    null ([internal::PairChecker<A, B>::PairChecker()]). *)
Definition pairName (a b : cls) : string :=
  "ns3::PairValue<" +:+ typeid_name a +:+ ", " +:+ typeid_name b +:+ ">".

Definition MakePairChecker0 : AttributeChecker :=
  let first_type_name := typeid_name A in
  let second_type_name := typeid_name B in
  let pairName := "ns3::PairValue<" +:+ first_type_name +:+ ", "
                    +:+ second_type_name +:+ ">" in
  let underlyingType := typeid_pair_name A B in
  {| CreateValidValue := simple_create;
     GetValueTypeName := pairName;
     GetUnderlyingTypeInformation := underlyingType;
     pair_part := Some (None, None) |}.

(** [MakePairChecker<A, B>(firstchecker, secondchecker)] *)
Definition MakePairChecker (firstchecker secondchecker : Ptr AttributeChecker)
  : M AttributeChecker :=
  let checker := MakePairChecker0 in
  acchecker <- deref_checker (as_PairChecker (Some checker));;
  ret (SetCheckers acchecker firstchecker secondchecker).

(** [GetAccessor<T> (value)]: [value = T(Get()); return true;].  [conv] is
    the conversion [T(...)]; the result carries the returned [bool] and
    what the out-parameter [value] has received. *)
Definition GetAccessor {T : Type} (conv : result_type -> T)
    (this : PairValue) : M (bool * T) :=
  got <- Get this;;
  ret (true, conv got).

End WithObjects.

(** [operator<< (os, p)] for a [std::pair]:
    [os << "(" << p.first << "," << p.second << ")"].  [os] is the text
    written to the stream so far, [show_first] and [show_second] what
    [operator<<] writes for the two members (no field width is set). *)
Definition print_pair {X Y : Type} (show_first : X -> string)
    (show_second : Y -> string) (os : string) (p : X * Y) : string :=
  os +:+ "(" +:+ show_first (fst p) +:+ "," +:+ show_second (snd p) +:+ ")".

End Pair.

(** ** Scenarios and reachable states *)

Module Scenario.
Import Stream Store Pair.
Local Open Scope pair_monad_scope.

Section WithObjects.
Context `{OM : ObjectModel} `{MT : !Methods} `{TP : !Template}.

(** Serialize a pair value built from [value], deserialize the text into a
    default-constructed pair value with the same checker, and read it:
    the returned flag and the pair that [Get] gives afterwards. *)
Definition roundtrip (value : result_type) (checker : Ptr AttributeChecker)
  : M (bool * result_type) :=
  pv <- PairValue_of value;;
  text <- SerializeToString pv checker;;
  target <- PairValue_default;;
  r <- DeserializeFromString target text checker;;
  got <- Get (snd r);;
  ret (fst r, got).

(** The pair values a client can hold: made by one of the two public
    constructors, then changed by [Set] and [DeserializeFromString] any
    number of times, while other objects may be created in between. *)
Inductive constructed : heap -> PairValue -> Prop :=
| by_default h this h' :
    PairValue_default h = Done this h' -> constructed h' this
| by_value value h this h' :
    PairValue_of value h = Done this h' -> constructed h' this
| after_Set h this value this' h' :
    constructed h this ->
    Set_ this value h = Done this' h' -> constructed h' this'
| after_Deserialize h this text checker ok this' h' :
    constructed h this ->
    DeserializeFromString this text checker h = Done (ok, this') h' ->
    constructed h' this'
| after_alloc h this o :
    constructed h this -> constructed (h ++ [o]) this.

(** Both members refer to objects of the store. *)
Definition both_present (h : heap) (this : PairValue) : Prop :=
  exists l1 l2 o1 o2,
    m_first this = Some l1 /\ m_second this = Some l2 /\
    h !! l1 = Some o1 /\ h !! l2 = Some o2.

(** No member dangles: a non-null member refers to an object of the store
    (what reference counting guarantees). *)
Definition valid (h : heap) (this : PairValue) : Prop :=
  (forall l, m_first this = Some l -> l < length h) /\
  (forall l, m_second this = Some l -> l < length h).

(** A computation that only ever adds objects to the store: the store it
    leaves starts with the store it was given. *)
Definition extends {X} (m : M X) : Prop :=
  forall h x h', m h = Done x h' -> exists k, h' = h ++ k.

(** A pair checker whose two component checkers have been set, or a
    checker that [DeserializeFromString] turns down at once. *)
Definition usable (checker : Ptr AttributeChecker) : bool :=
  match as_PairChecker checker with
  | None => true
  | Some pchecker =>
      match GetCheckers pchecker with
      | (Some _, Some _) => true
      | _ => false
      end
  end.

End WithObjects.

(** A character test for type names. *)
Definition is_comma (c : ascii) : bool := Nat.eqb (nat_of_ascii c) 44.

Fixpoint no_comma (s : string) : bool :=
  match s with
  | EmptyString => true
  | String c r => negb (is_comma c) && no_comma r
  end.

End Scenario.

(** ** A client program with three value classes

    [Num] holds a natural number and prints it in decimal; its checker
    accepts the non-empty digit strings.  [Str] holds a string that is its
    own text; its checker accepts every string.  [SubNum] derives from
    [Num]. *)

Module Demo.
Import Stream Store Pair Scenario.

Inductive klass := Num | Str | SubNum.

Inductive fields :=
| FNum (n : nat)
| FStr (s : string).

Definition klass_derives (c d : klass) : bool :=
  match c, d with
  | Num, Num | Str, Str | SubNum, SubNum | SubNum, Num => true
  | _, _ => false
  end.

(** Names as the Itanium C++ ABI mangles [ns3::Ptr<ns3::Num>] etc. *)
Definition klass_name (c : klass) : string :=
  match c with
  | Num => "N3ns33PtrINS_3NumEEE"
  | Str => "N3ns33PtrINS_3StrEEE"
  | SubNum => "N3ns33PtrINS_6SubNumEEE"
  end.

(** The program under a C++ implementation whose [typeid] names the
    pointer types by [name]. *)
Definition objects_named (name : klass -> string) : ObjectModel :=
  {| cls := klass;
     payload := fields;
     derives := klass_derives;
     typeid_name := name;
     typeid_pair_name := fun a b =>
       "St4pairI" +:+ name a +:+ name b +:+ "E" |}.

Definition objects : ObjectModel := objects_named klass_name.

#[local] Existing Instance objects.

(** Names that read like declarations: distinct types have distinct
    names, but a name may contain a comma. *)
Definition readable_name (c : klass) : string :=
  match c with
  | Num => "T"
  | Str => "T, T"
  | SubNum => "U"
  end.

(** The program with [Num] and [Str] both declared as [Value] in the
    unnamed namespaces of two translation units: the Itanium ABI mangles
    the two pointer types alike. *)
Definition unnamed_namespace_name (c : klass) : string :=
  match c with
  | Num | Str => "N3ns33PtrIN12_GLOBAL__N_15ValueEEE"
  | SubNum => "N3ns33PtrINS_6SubNumEEE"
  end.

Definition num_of (f : fields) : nat :=
  match f with FNum n => n | FStr _ => 0 end.

Definition str_of (f : fields) : string :=
  match f with FStr s => s | FNum _ => EmptyString end.

Definition digit (c : ascii) : option nat :=
  let n := nat_of_ascii c in
  if Nat.leb 48 n && Nat.leb n 57 then Some (n - 48) else None.

Fixpoint parse_dec (acc : nat) (s : string) : option nat :=
  match s with
  | EmptyString => Some acc
  | String c r =>
      match digit c with
      | Some d => parse_dec (10 * acc + d) r
      | None => None
      end
  end.

Definition num_of_string (s : string) : option nat :=
  if is_empty s then None else parse_dec 0 s.

Definition string_of_num (n : nat) : string :=
  DecimalString.NilEmpty.string_of_uint (Nat.to_uint n).

Definition checker_of (create : string -> Ptr (@AttributeValue objects))
    (name : string) : @AttributeChecker objects :=
  {| CreateValidValue := create;
     GetValueTypeName := name;
     GetUnderlyingTypeInformation := name;
     pair_part := None |}.

Definition num_checker : @AttributeChecker objects :=
  checker_of (fun s => match num_of_string s with
                       | Some n => Some (Obj Num (FNum n))
                       | None => None
                       end) "Num".

Definition str_checker : @AttributeChecker objects :=
  checker_of (fun s => Some (Obj Str (FStr s))) "Str".

(** A checker for numbers that creates [SubNum] objects. *)
Definition subnum_checker : @AttributeChecker objects :=
  checker_of (fun s => match num_of_string s with
                       | Some n => Some (Obj SubNum (FNum n))
                       | None => None
                       end) "SubNum".

Definition methods_named (name : klass -> string)
  : @Methods (objects_named name) :=
  {| v_Copy := fun o => o;
     v_SerializeToString := fun o _ =>
       match @data (objects_named name) o with
       | FNum n => string_of_num n
       | FStr s => s
       end;
     simple_create := fun _ => None |}.

Definition methods : @Methods objects := methods_named klass_name.

(** [PairValue<a, b>] of two of the classes, read as their data members. *)
Definition template_named (name : klass -> string) (a b : klass)
  : @Template (objects_named name) :=
  @Build_Template (objects_named name) a b fields fields
    (FNum 0) (fun f => f) (fun f => f)
    (FNum 0) (fun f => f) (fun f => f).

(** [PairValue<Num, Num>], [PairValue<Num, Str>], [PairValue<Str, Str>],
    [PairValue<Str, Num>] *)
Definition num_num : @Template objects :=
  {| A := Num; B := Num; first_type := nat; second_type := nat;
     A_default := FNum 0; A_from := FNum; A_Get := num_of;
     B_default := FNum 0; B_from := FNum; B_Get := num_of |}.

Definition num_str : @Template objects :=
  {| A := Num; B := Str; first_type := nat; second_type := string;
     A_default := FNum 0; A_from := FNum; A_Get := num_of;
     B_default := FStr EmptyString; B_from := FStr; B_Get := str_of |}.

Definition str_str : @Template objects :=
  {| A := Str; B := Str; first_type := string; second_type := string;
     A_default := FStr EmptyString; A_from := FStr; A_Get := str_of;
     B_default := FStr EmptyString; B_from := FStr; B_Get := str_of |}.

Definition str_num : @Template objects :=
  {| A := Str; B := Num; first_type := string; second_type := nat;
     A_default := FStr EmptyString; A_from := FStr; A_Get := str_of;
     B_default := FNum 0; B_from := FNum; B_Get := num_of |}.

(** The checker [MakePairChecker<A, B>(first, second)] returns. *)
Definition pair_checker (T : @Template objects)
    (firstchecker secondchecker : @AttributeChecker objects)
  : Ptr (@AttributeChecker objects) :=
  result (@MakePairChecker objects methods T
            (Some firstchecker) (Some secondchecker) []).

(** [SubNum] without a [Copy] of its own: it inherits [Num::Copy], which
    creates a [Num]. *)
Definition inherited_copy : @Methods objects :=
  {| v_Copy := fun o => Obj Num (data o);
     v_SerializeToString := v_SerializeToString (Methods := methods);
     simple_create := fun _ => None |}.

(** [PairValue<SubNum, SubNum>] *)
Definition sub_sub : @Template objects :=
  {| A := SubNum; B := SubNum; first_type := nat; second_type := nat;
     A_default := FNum 0; A_from := FNum; A_Get := num_of;
     B_default := FNum 0; B_from := FNum; B_Get := num_of |}.

(** [MakePairChecker<Str, Str>(str_checker, str_checker)] *)
Definition ss_checker : Ptr (@AttributeChecker objects) :=
  pair_checker str_str str_checker str_checker.

(** A store with the two members [7] and [8] of a [PairValue<Num, Num>],
    and that pair value. *)
Definition store78 : @heap objects := [Obj Num (FNum 7); Obj Num (FNum 8)].

Definition pair01 : PairValue := {| m_first := Some 0; m_second := Some 1 |}.

(** [MakePairChecker<Num, Num>(num_checker, num_checker)] *)
Definition nn_checker : Ptr (@AttributeChecker objects) :=
  pair_checker num_num num_checker num_checker.

End Demo.

(** * Properties *)

(** ** Extraction and tokens *)

Import Stream Store Pair Scenario.

Section StreamFacts.

Lemma append_nil (s : string) : EmptyString +:+ s = s.
Proof. reflexivity. Qed.

Lemma append_cons c (s t : string) : String c s +:+ t = String c (s +:+ t).
Proof. reflexivity. Qed.

Lemma append_empty_r (s : string) : s +:+ EmptyString = s.
Proof.
  induction s as [|c s IH]; [reflexivity | now rewrite append_cons, IH].
Qed.

Lemma append_assoc (s t u : string) : (s +:+ t) +:+ u = s +:+ (t +:+ u).
Proof.
  induction s as [|c s IH]; [reflexivity | now rewrite !append_cons, IH].
Qed.

(** The word that extraction stores holds no whitespace. *)
Lemma word_no_space (s : string) : no_space (fst (word s)) = true.
Proof.
  induction s as [|c r IH]; simpl; [reflexivity|].
  destruct (isspace c) eqn:Hc; simpl; [reflexivity|].
  destruct (word r) as [w rest]; simpl in *. now rewrite Hc, IH.
Qed.

Lemma skipws_head (s : string) c r :
  skipws s = String c r -> isspace c = false.
Proof.
  induction s as [|d s IH]; simpl; [discriminate|].
  destruct (isspace d) eqn:Hd; [exact IH|].
  intros [= -> _]. exact Hd.
Qed.

(** Scanning a buffer: the pending token grows by the next word. *)
Lemma scan_word (s acc : string) :
  scan acc s =
    let '(w, rest) := word s in
    if is_empty (acc +:+ w) then scan EmptyString rest
    else (acc +:+ w) :: scan EmptyString rest.
Proof.
  revert acc; induction s as [|c r IH]; intros acc; cbn [scan word].
  - rewrite append_empty_r. now destruct (is_empty acc).
  - destruct (isspace c) eqn:Hc.
    + rewrite append_empty_r. cbn [scan is_empty]. now rewrite Hc.
    + rewrite IH. destruct (word r) as [w rest].
      now rewrite append_assoc, append_cons, append_nil.
Qed.

Lemma scan_skipws (s : string) :
  scan EmptyString s = scan EmptyString (skipws s).
Proof.
  induction s as [|c r IH]; simpl; [reflexivity|].
  destruct (isspace c) eqn:Hc; simpl; [exact IH | now rewrite Hc].
Qed.

(** The tokens of a buffer, one extraction at a time. *)
Lemma tokens_step (s : string) :
  tokens s =
    match skipws s with
    | EmptyString => []
    | String c r => fst (word (String c r)) :: tokens (snd (word (String c r)))
    end.
Proof.
  unfold tokens. rewrite scan_skipws.
  destruct (skipws s) as [|c r] eqn:Hs; [reflexivity|].
  pose proof (skipws_head _ _ _ Hs) as Hc.
  rewrite scan_word. simpl. rewrite Hc.
  destruct (word r) as [w rest]; reflexivity.
Qed.

(** Every token is one: not empty and free of whitespace. *)
Lemma tokens_head_is_token (s t : string) (ts : list string) :
  tokens s = t :: ts -> is_token t = true.
Proof.
  rewrite tokens_step.
  destruct (skipws s) as [|c r] eqn:Hs; [discriminate|].
  pose proof (word_no_space (String c r)) as N.
  pose proof (skipws_head _ _ _ Hs) as Hc.
  assert (E : is_empty (fst (word (String c r))) = false).
  { cbn [word]. rewrite Hc. now destruct (word r). }
  destruct (word (String c r)) as [w rest]. cbn [fst snd] in *.
  intros [= <- _]. unfold is_token. now rewrite N, E.
Qed.

Lemma tokens_second_is_token (s t1 t2 : string) (ts : list string) :
  tokens s = t1 :: t2 :: ts -> is_token t2 = true.
Proof.
  rewrite tokens_step. destruct (skipws s) as [|c r]; [discriminate|].
  intros [= _ E]. eapply tokens_head_is_token, E.
Qed.

(** What the two extractions of [DeserializeFromString] read, by the
    number of tokens of the text. *)
Lemma read_two_none (value : string) :
  tokens value = [] -> read_two value = (value, value).
Proof.
  rewrite tokens_step. unfold read_two, extract, istringstream_of, good.
  cbn [buf eofbit failbit orb negb].
  destruct (skipws value) as [|c r]; [reflexivity | discriminate].
Qed.

Lemma read_two_one (value t : string) :
  tokens value = [t] -> read_two value = (t, t).
Proof.
  rewrite tokens_step. unfold read_two, extract, istringstream_of, good.
  cbn [buf eofbit failbit orb negb].
  destruct (skipws value) as [|c r]; [discriminate|].
  destruct (word (String c r)) as [w rest]. cbn [fst snd buf eofbit failbit].
  intros [= -> Hrest]. rewrite tokens_step in Hrest.
  rewrite orb_false_r.
  destruct rest as [|d rest']; [reflexivity|]. cbn [is_empty negb].
  destruct (skipws (String d rest')) as [|c' r']; [reflexivity | discriminate].
Qed.

Lemma read_two_more (value t1 t2 : string) (rest : list string) :
  tokens value = t1 :: t2 :: rest -> read_two value = (t1, t2).
Proof.
  rewrite tokens_step. unfold read_two, extract, istringstream_of, good.
  cbn [buf eofbit failbit orb negb].
  destruct (skipws value) as [|c r]; [discriminate|].
  destruct (word (String c r)) as [w rest1]. cbn [fst snd buf eofbit failbit].
  intros [= -> Hrest]. rewrite tokens_step in Hrest.
  rewrite orb_false_r.
  destruct rest1 as [|d rest']; [discriminate|]. cbn [is_empty negb].
  destruct (skipws (String d rest')) as [|c' r']; [discriminate|].
  destruct (word (String c' r')) as [w2 rest2]. cbn [fst snd] in *.
  now injection Hrest as -> _.
Qed.

(** Scanning over a piece without whitespace only extends the pending
    token. *)
Lemma scan_no_space (t s acc : string) :
  no_space t = true -> scan acc (t +:+ s) = scan (acc +:+ t) s.
Proof.
  revert acc; induction t as [|c t IH]; intros acc.
  - now rewrite append_nil, append_empty_r.
  - cbn [no_space]. intros [Hc Ht]%andb_prop. apply negb_true_iff in Hc.
    rewrite append_cons. cbn [scan]. rewrite Hc, IH by exact Ht.
    now rewrite append_assoc, append_cons, append_nil.
Qed.

(** The text [SerializeToString] writes has exactly the two tokens it was
    made of, when both are tokens. *)
Lemma tokens_joined (t1 t2 : string) :
  is_token t1 = true -> is_token t2 = true ->
  tokens (t1 +:+ " " +:+ t2) = [t1; t2].
Proof.
  unfold is_token, tokens.
  intros [H1 N1]%andb_prop [H2 N2]%andb_prop.
  rewrite scan_no_space by exact N1.
  rewrite append_nil, append_cons, append_nil. cbn [scan].
  apply negb_true_iff in H1. rewrite H1.
  change (isspace " ") with true. cbn iota.
  pose proof (scan_no_space t2 EmptyString EmptyString N2) as E.
  rewrite append_empty_r, append_nil in E. rewrite E. cbn [scan].
  apply negb_true_iff in H2. now rewrite H2.
Qed.

End StreamFacts.

(** ** The store and the monad *)

Section PairFacts.
Context `{OM : ObjectModel} `{MT : !Methods} `{TP : !Template}.
Local Open Scope pair_monad_scope.

Lemma lookup_new (h : heap) (o : AttributeValue) :
  (h ++ [o]) !! length h = Some o.
Proof. apply list_lookup_middle. reflexivity. Qed.

Lemma lookup_old (h k : heap) (l : loc) :
  l < length h -> (h ++ k) !! l = h !! l.
Proof. intros Hl. now apply lookup_app_l. Qed.

(** Casting the pointer that [alloc] has just returned. *)
Lemma DynamicCast_new (T : cls) (h : heap) (o : AttributeValue) :
  DynamicCast T (Some (length h)) (h ++ [o]) =
    Done (if derives (dyn o) T then Some (length h) else None) (h ++ [o]).
Proof. unfold DynamicCast. now rewrite lookup_new. Qed.

(** [DeserializeFromString], step by step: what is returned and what the
    store holds afterwards, by the answers of the component checkers to
    the two words read. *)
Lemma deserialize_unfold (this : PairValue) (value : string)
    (checker : Ptr AttributeChecker) (h : heap) :
  DeserializeFromString this value checker h =
    match as_PairChecker checker with
    | None => Done (false, this) h
    | Some pchecker =>
        match fst (GetCheckers pchecker) with
        | None => Fault
        | Some fc =>
            match CreateValidValue fc (fst (read_two value)) with
            | None => Done (false, this) h
            | Some o1 =>
                if derives (dyn o1) A then
                  match snd (GetCheckers pchecker) with
                  | None => Fault
                  | Some sc =>
                      match CreateValidValue sc (snd (read_two value)) with
                      | None => Done (false, this) (h ++ [o1])
                      | Some o2 =>
                          if derives (dyn o2) B
                          then Done (true, {| m_first := Some (length h);
                                              m_second := Some (S (length h)) |})
                                    ((h ++ [o1]) ++ [o2])
                          else Done (false, this) ((h ++ [o1]) ++ [o2])
                      end
                  end
                else Done (false, this) (h ++ [o1])
            end
        end
    end.
Proof.
  unfold DeserializeFromString, read_two.
  destruct (as_PairChecker checker) as [pchecker|]; [|reflexivity].
  destruct (extract (istringstream_of value) value) as [iss1 v1].
  destruct (extract iss1 v1) as [iss2 v2]. cbn [fst snd].
  destruct (GetCheckers pchecker) as [[fc|] sc]; cbn [fst snd];
    [|reflexivity].
  unfold bind at 1. cbn [deref_checker ret].
  unfold bind at 1.
  destruct (CreateValidValue fc v1) as [o1|]; cbn [alloc_ptr];
    [|reflexivity].
  unfold bind at 1, alloc, ret. unfold bind at 1.
  rewrite DynamicCast_new.
  destruct (derives (dyn o1) A); [|reflexivity].
  destruct sc as [sc|]; [|reflexivity].
  unfold bind at 1. cbn [deref_checker ret]. unfold bind at 1.
  destruct (CreateValidValue sc v2) as [o2|]; cbn [alloc_ptr];
    [|reflexivity].
  unfold bind at 1, alloc, ret. unfold bind at 1.
  replace (S (length h)) with (length (h ++ [o1]))
    by (rewrite length_app; simpl; lia).
  rewrite DynamicCast_new.
  destruct (derives (dyn o2) B); reflexivity.
Qed.

Lemma lookup_pair_fst (h : heap) (o1 o2 : AttributeValue) :
  ((h ++ [o1]) ++ [o2]) !! length h = Some o1.
Proof.
  rewrite lookup_old by (rewrite length_app; simpl; lia). apply lookup_new.
Qed.

Lemma lookup_pair_snd (h : heap) (o1 o2 : AttributeValue) :
  ((h ++ [o1]) ++ [o2]) !! S (length h) = Some o2.
Proof.
  replace (S (length h)) with (length (h ++ [o1]))
    by (rewrite length_app; simpl; lia).
  apply lookup_new.
Qed.

(** The member functions on a pair value whose members are known. *)
Lemma PairValue_default_eq (h : heap) :
  PairValue_default h =
    Done {| m_first := Some (length h); m_second := Some (S (length h)) |}
         ((h ++ [Obj A A_default]) ++ [Obj B B_default]).
Proof.
  unfold PairValue_default, bind, alloc, ret.
  rewrite length_app. simpl. now rewrite Nat.add_1_r.
Qed.

Lemma Set_eq (this : PairValue) (value : result_type) (h : heap) :
  Set_ this value h =
    Done {| m_first := Some (length h); m_second := Some (S (length h)) |}
         ((h ++ [Obj A (A_from (fst value))]) ++ [Obj B (B_from (snd value))]).
Proof.
  unfold Set_, bind, alloc, ret.
  rewrite length_app. simpl. now rewrite Nat.add_1_r.
Qed.

Lemma Get_eq (this : PairValue) (h : heap) l1 l2 o1 o2 :
  m_first this = Some l1 -> m_second this = Some l2 ->
  h !! l1 = Some o1 -> h !! l2 = Some o2 ->
  Get this h = Done (A_Get (data o1), B_Get (data o2)) h.
Proof.
  intros E1 E2 H1 H2. unfold Get, bind, deref, ret.
  now rewrite E1, H1, E2, H2.
Qed.

Lemma SerializeToString_eq (this : PairValue) checker (h : heap) l1 l2 o1 o2 :
  m_first this = Some l1 -> m_second this = Some l2 ->
  h !! l1 = Some o1 -> h !! l2 = Some o2 ->
  SerializeToString this checker h =
    Done (v_SerializeToString o1 checker +:+ " " +:+
          v_SerializeToString o2 checker) h.
Proof.
  intros E1 E2 H1 H2. unfold SerializeToString, bind, deref, ret.
  now rewrite E1, H1, E2, H2.
Qed.

Lemma Get_new_pair (h : heap) (o1 o2 : AttributeValue) :
  Get {| m_first := Some (length h); m_second := Some (S (length h)) |}
      ((h ++ [o1]) ++ [o2])
  = Done (A_Get (data o1), B_Get (data o2)) ((h ++ [o1]) ++ [o2]).
Proof.
  eapply Get_eq; [reflexivity | reflexivity | |].
  - apply lookup_pair_fst.
  - apply lookup_pair_snd.
Qed.

(** [Copy] of a pair value with both members present: the copies of the
    two members are created after the two objects of the default
    constructor, and each is kept only if the cast to the component class
    succeeds. *)
Lemma Copy_eq (this : PairValue) (h : heap) l1 l2 o1 o2 :
  m_first this = Some l1 -> m_second this = Some l2 ->
  h !! l1 = Some o1 -> h !! l2 = Some o2 ->
  Copy this h =
    let h0 := (h ++ [Obj A A_default]) ++ [Obj B B_default] in
    Done {| m_first := if derives (dyn (v_Copy o1)) A
                       then Some (length h0) else None;
            m_second := if derives (dyn (v_Copy o2)) B
                        then Some (S (length h0)) else None |}
         ((h0 ++ [v_Copy o1]) ++ [v_Copy o2]).
Proof.
  intros E1 E2 H1 H2. cbv zeta.
  set (h0 := (h ++ [Obj A A_default]) ++ [Obj B B_default]).
  assert (A1 : h0 !! l1 = Some o1).
  { unfold h0. rewrite <- app_assoc.
    rewrite lookup_old; [exact H1 | eapply lookup_lt_Some, H1]. }
  assert (A2 : (h0 ++ [v_Copy o1]) !! l2 = Some o2).
  { unfold h0. rewrite <- !app_assoc.
    rewrite lookup_old; [exact H2 | eapply lookup_lt_Some, H2]. }
  unfold Copy. unfold bind at 1. rewrite PairValue_default_eq. fold h0.
  rewrite E1, E2. unfold heap in *.
  unfold bind at 1, deref. unfold heap in *. rewrite A1.
  unfold bind at 1, alloc. unfold bind at 1. rewrite DynamicCast_new.
  unfold bind at 1. rewrite A2.
  unfold bind at 1. unfold bind at 1.
  replace (length (h0 ++ [v_Copy o1])) with (S (length h0))
    by (rewrite length_app; simpl; lia).
  replace (S (length h0)) with (length (h0 ++ [v_Copy o1])) at 1
    by (rewrite length_app; simpl; lia).
  rewrite DynamicCast_new.
  replace (length (h0 ++ [v_Copy o1])) with (S (length h0))
    by (rewrite length_app; simpl; lia).
  reflexivity.
Qed.

(** Creating objects does not change what [Get] reads. *)
Lemma Get_frame (this : PairValue) (h k : heap) :
  valid h this -> result (Get this (h ++ k)) = result (Get this h).
Proof.
  intros [V1 V2]. unfold Get, bind, deref, ret.
  destruct (m_first this) as [l1|]; [|reflexivity].
  rewrite lookup_old by (apply V1; reflexivity).
  destruct (h !! l1) as [o1|]; [|reflexivity].
  destruct (m_second this) as [l2|]; [|reflexivity].
  rewrite lookup_old by (apply V2; reflexivity).
  destruct (h !! l2) as [o2|]; reflexivity.
Qed.

Lemma both_present_frame (this : PairValue) (h k : heap) :
  both_present h this -> both_present (h ++ k) this.
Proof.
  intros (l1 & l2 & o1 & o2 & E1 & E2 & H1 & H2).
  exists l1, l2, o1, o2. repeat split; try assumption.
  - rewrite lookup_old; [exact H1 | eapply lookup_lt_Some, H1].
  - rewrite lookup_old; [exact H2 | eapply lookup_lt_Some, H2].
Qed.

Lemma both_present_new_pair (h : heap) (o1 o2 : AttributeValue) :
  both_present ((h ++ [o1]) ++ [o2])
    {| m_first := Some (length h); m_second := Some (S (length h)) |}.
Proof.
  exists (length h), (S (length h)), o1, o2.
  repeat split; [apply lookup_pair_fst | apply lookup_pair_snd].
Qed.

(** A call of [DeserializeFromString] that returns leaves the old objects
    in place, and returns [false] only with [*this] as it was. *)
Lemma deserialize_Done (this : PairValue) value checker h ok this' h' :
  DeserializeFromString this value checker h = Done (ok, this') h' ->
  exists k, h' = h ++ k /\
    (ok = false -> this' = this) /\
    (ok = true -> exists o1 o2, k = [o1; o2] /\
       this' = {| m_first := Some (length h); m_second := Some (S (length h)) |}).
Proof.
  rewrite deserialize_unfold.
  assert (Hfalse : forall k h0, h0 = h ++ k ->
    exists k0, h0 = h ++ k0 /\ (false = false -> this = this) /\
      (false = true -> exists o1 o2, k0 = [o1; o2] /\
         this = {| m_first := Some (length h);
                   m_second := Some (S (length h)) |})).
  { intros k h0 ->. exists k.
    split; [reflexivity|]. split; [reflexivity|discriminate]. }
  destruct (as_PairChecker checker) as [pchecker|].
  2:{ intros [= <- <- <-]. apply (Hfalse []). now rewrite app_nil_r. }
  destruct (fst (GetCheckers pchecker)) as [fc|]; [|discriminate].
  destruct (CreateValidValue fc _) as [o1|].
  2:{ intros [= <- <- <-]. apply (Hfalse []). now rewrite app_nil_r. }
  destruct (derives (dyn o1) A).
  2:{ intros [= <- <- <-]. now apply (Hfalse [o1]). }
  destruct (snd (GetCheckers pchecker)) as [sc|]; [|discriminate].
  destruct (CreateValidValue sc _) as [o2|].
  2:{ intros [= <- <- <-]. now apply (Hfalse [o1]). }
  destruct (derives (dyn o2) B); intros [= <- <- <-];
    rewrite <- app_assoc.
  - exists [o1; o2]. split; [reflexivity|]. split; [discriminate|].
    intros _. exists o1, o2. split; reflexivity.
  - now apply (Hfalse [o1; o2]).
Qed.

(** The call depends on the text only through the two words it reads. *)
Lemma deserialize_words (this : PairValue) value value' checker h :
  read_two value = read_two value' ->
  DeserializeFromString this value checker h =
  DeserializeFromString this value' checker h.
Proof. intros E. now rewrite !deserialize_unfold, E. Qed.

End PairFacts.

(** ** Deserialization *)

Section Deserialization.
Context `{OM : ObjectModel} `{MT : !Methods} `{TP : !Template}.

(** C1 (failure atomicity).  When [DeserializeFromString] returns [false],
    whatever the reason, the pair value holds the two pointers it held
    before, every object that existed before the call is still in the
    store unchanged, and [Get] gives what it gave before the call. *)
Theorem deserialize_failure_atomic
    (this this' : PairValue) (value : string)
    (checker : Ptr AttributeChecker) (h h' : heap) :
  valid h this ->
  DeserializeFromString this value checker h = Done (false, this') h' ->
  this' = this /\
  h `prefix_of` h' /\
  result (Get this' h') = result (Get this h).
Proof.
  intros V D.
  destruct (deserialize_Done _ _ _ _ _ _ _ D) as (k & -> & Hsame & _).
  rewrite (Hsame eq_refl).
  split; [reflexivity|]. split; [now exists k|].
  now apply Get_frame.
Qed.

(** X8.  A text with a single token: the second extraction fails and
    leaves the first word in [value], so both component checkers are asked
    about the same word; the call behaves as on the text that repeats the
    token. *)
Lemma deserialize_single_token (this : PairValue) (value t : string)
    (checker : Ptr AttributeChecker) (h : heap) :
  tokens value = [t] ->
  DeserializeFromString this value checker h =
  DeserializeFromString this (t +:+ " " +:+ t) checker h.
Proof.
  intros Hone. pose proof (tokens_head_is_token _ _ _ Hone) as Ht.
  apply deserialize_words.
  rewrite (read_two_one _ _ Hone).
  symmetry. eapply read_two_more. now apply tokens_joined.
Qed.

(** C10 (extra tokens).  On a text with more than two tokens the call
    reads the first two and ignores the rest, whatever the component
    checkers answer: the outcome is that of the text made of the first two
    tokens and one space, and that of any other text that starts with the
    same two tokens.  In particular, when the two component checkers
    accept these two tokens with objects of the component classes, the
    call returns [true] and installs the two new objects. *)
Theorem deserialize_ignores_extra_tokens
    (this : PairValue) (value : string) (t1 t2 t3 : string)
    (rest : list string) (checker : Ptr AttributeChecker) (h : heap) :
  tokens value = t1 :: t2 :: t3 :: rest ->
  DeserializeFromString this value checker h =
    DeserializeFromString this (t1 +:+ " " +:+ t2) checker h /\
  (forall value' rest', tokens value' = t1 :: t2 :: rest' ->
     DeserializeFromString this value' checker h =
     DeserializeFromString this value checker h) /\
  (forall (pchecker fc sc : AttributeChecker) (o1 o2 : AttributeValue),
     as_PairChecker checker = Some pchecker ->
     GetCheckers pchecker = (Some fc, Some sc) ->
     CreateValidValue fc t1 = Some o1 -> derives (dyn o1) A = true ->
     CreateValidValue sc t2 = Some o2 -> derives (dyn o2) B = true ->
     DeserializeFromString this value checker h =
       Done (true, {| m_first := Some (length h);
                      m_second := Some (S (length h)) |})
            (h ++ [o1; o2]) /\
     Get {| m_first := Some (length h); m_second := Some (S (length h)) |}
         (h ++ [o1; o2])
       = Done (A_Get (data o1), B_Get (data o2)) (h ++ [o1; o2])).
Proof.
  intros Htok.
  pose proof (read_two_more _ _ _ _ Htok) as R.
  split; [|split].
  - apply deserialize_words. rewrite R. symmetry.
    eapply (read_two_more _ _ _ []), tokens_joined.
    + eapply tokens_head_is_token, Htok.
    + eapply tokens_second_is_token, Htok.
  - intros value' rest' Htok'. apply deserialize_words.
    now rewrite R, (read_two_more _ _ _ _ Htok').
  - intros pchecker fc sc o1 o2 Hp Hcs H1 D1 H2 D2. split.
    + rewrite deserialize_unfold, Hp, Hcs, R; cbn [fst snd].
      rewrite H1, D1, H2, D2. now rewrite <- app_assoc.
    + replace (h ++ [o1; o2]) with ((h ++ [o1]) ++ [o2])
        by now rewrite <- app_assoc.
      apply Get_new_pair.
Qed.

(** C4, as the code has it.  With a checker that is null, or not a pair
    checker, or a pair checker whose two component checkers are set,
    [DeserializeFromString] returns for every text, and every failure is
    a [false] return that leaves [*this] alone: the call returns [false]
    when the checker is not a pair checker, when a component checker
    rejects the word read for it, and when the object a component checker
    creates fails the cast to the component class. *)
Theorem deserialize_returns
    (this : PairValue) (value : string)
    (checker : Ptr AttributeChecker) (h : heap) :
  usable checker = true ->
  exists ok this' h',
    DeserializeFromString this value checker h = Done (ok, this') h' /\
    (ok = false -> this' = this) /\
    (as_PairChecker checker = None -> ok = false) /\
    (forall pchecker fc sc,
       as_PairChecker checker = Some pchecker ->
       GetCheckers pchecker = (Some fc, Some sc) ->
       (CreateValidValue fc (fst (read_two value)) = None -> ok = false) /\
       (forall o1, CreateValidValue fc (fst (read_two value)) = Some o1 ->
                   derives (dyn o1) A = false -> ok = false) /\
       (CreateValidValue sc (snd (read_two value)) = None -> ok = false) /\
       (forall o2, CreateValidValue sc (snd (read_two value)) = Some o2 ->
                   derives (dyn o2) B = false -> ok = false)).
Proof.
  unfold usable. intros U. rewrite deserialize_unfold.
  destruct (as_PairChecker checker) as [pchecker|] eqn:Hp.
  2:{ exists false, this, h. repeat split. }
  destruct (GetCheckers pchecker) as [[fc|] [sc|]] eqn:G; try discriminate.
  cbn [fst snd].
  assert (Hfalse : forall h',
    exists ok this' h'',
      Done (false, this) h' = Done (ok, this') h'' /\
      (ok = false -> this' = this) /\
      (Some pchecker = None -> ok = false) /\
      (forall pc fc' sc', Some pchecker = Some pc ->
         GetCheckers pc = (Some fc', Some sc') ->
         (CreateValidValue fc' (fst (read_two value)) = None -> ok = false) /\
         (forall o1, CreateValidValue fc' (fst (read_two value)) = Some o1 ->
                     derives (dyn o1) A = false -> ok = false) /\
         (CreateValidValue sc' (snd (read_two value)) = None -> ok = false) /\
         (forall o2, CreateValidValue sc' (snd (read_two value)) = Some o2 ->
                     derives (dyn o2) B = false -> ok = false))).
  { intros h'. exists false, this, h'. repeat split. }
  destruct (CreateValidValue fc _) as [o1|] eqn:H1; [|apply Hfalse].
  destruct (derives (dyn o1) A) eqn:D1; [|apply Hfalse].
  destruct (CreateValidValue sc _) as [o2|] eqn:H2; [|apply Hfalse].
  destruct (derives (dyn o2) B) eqn:D2; [|apply Hfalse].
  eexists _, _, _. split; [reflexivity|].
  split; [discriminate|]. split; [discriminate|].
  intros pc fc' sc' [= <-] G'. rewrite G in G'. injection G' as <- <-.
  rewrite H1, H2. repeat split; intros; congruence.
Qed.

(** With a pair checker whose first component checker is still null the
    call dereferences the null pointer, whatever the text. *)
Lemma deserialize_unset_checker (this : PairValue) (value : string)
    (pchecker : AttributeChecker) (sc : Ptr AttributeChecker) (h : heap) :
  pair_part pchecker = Some (None, sc) ->
  DeserializeFromString this value (Some pchecker) h = Fault.
Proof.
  intros Hp. rewrite deserialize_unfold. unfold as_PairChecker.
  rewrite Hp. unfold GetCheckers. rewrite Hp. reflexivity.
Qed.

(** C5, as the code has it.  With both component checkers set, the call
    returns [true] exactly when four conditions hold together: the first
    checker accepts the first word, the object it creates is an [A] (of
    class [A] or of a class derived from [A]), the second checker accepts
    the second word, and the object it creates is a [B].  Acceptance by a
    checker is never enough: an accepted word whose object fails the cast
    makes the call return [false]. *)
Theorem deserialize_true_iff
    (this : PairValue) (value : string) (checker : Ptr AttributeChecker)
    (pchecker fc sc : AttributeChecker) (h : heap) :
  as_PairChecker checker = Some pchecker ->
  GetCheckers pchecker = (Some fc, Some sc) ->
  (exists ok this' h',
     DeserializeFromString this value checker h = Done (ok, this') h' /\
     (ok = true <->
      exists o1 o2,
        CreateValidValue fc (fst (read_two value)) = Some o1 /\
        derives (dyn o1) A = true /\
        CreateValidValue sc (snd (read_two value)) = Some o2 /\
        derives (dyn o2) B = true)) /\
  (forall o1, CreateValidValue fc (fst (read_two value)) = Some o1 ->
     derives (dyn o1) A = false ->
     DeserializeFromString this value checker h = Done (false, this) (h ++ [o1])) /\
  (forall o1 o2,
     CreateValidValue fc (fst (read_two value)) = Some o1 ->
     derives (dyn o1) A = true ->
     CreateValidValue sc (snd (read_two value)) = Some o2 ->
     derives (dyn o2) B = false ->
     DeserializeFromString this value checker h =
       Done (false, this) (h ++ [o1; o2])).
Proof.
  intros Hp Hcs. rewrite deserialize_unfold, Hp, Hcs. cbn [fst snd].
  split; [|split].
  - destruct (CreateValidValue fc _) as [o1|] eqn:H1.
    2:{ eexists _, _, _. split; [reflexivity|].
        split; [discriminate | intros (? & ? & ? & _); discriminate]. }
    destruct (derives (dyn o1) A) eqn:D1.
    2:{ eexists _, _, _. split; [reflexivity|].
        split; [discriminate | intros (? & ? & [= <-] & ? & _); congruence]. }
    destruct (CreateValidValue sc _) as [o2|] eqn:H2.
    2:{ eexists _, _, _. split; [reflexivity|].
        split; [discriminate | intros (? & ? & _ & _ & ? & _); discriminate]. }
    destruct (derives (dyn o2) B) eqn:D2.
    + eexists _, _, _. split; [reflexivity|].
      split; [intros _; now exists o1, o2 | reflexivity].
    + eexists _, _, _. split; [reflexivity|].
      split; [discriminate|].
      intros (? & ? & _ & _ & [= <-] & ?); congruence.
  - intros o1 -> ->. reflexivity.
  - intros o1 o2 -> -> -> ->. now rewrite <- app_assoc.
Qed.

End Deserialization.

(** ** Serialization, construction and copying *)

Section Values.
Context `{OM : ObjectModel} `{MT : !Methods} `{TP : !Template}.

(** C6 (text format).  For a pair value whose two members are present,
    [SerializeToString (checker)] returns the text of the first member,
    one space, and the text of the second member, in this order; both
    members are serialized with the [checker] of the caller, and the store
    is left as it was. *)
Theorem serialize_format
    (this : PairValue) (checker : Ptr AttributeChecker) (h : heap)
    (l1 l2 : loc) (o1 o2 : AttributeValue) :
  m_first this = Some l1 -> m_second this = Some l2 ->
  h !! l1 = Some o1 -> h !! l2 = Some o2 ->
  SerializeToString this checker h =
    Done (v_SerializeToString o1 checker +:+ " " +:+
          v_SerializeToString o2 checker) h.
Proof.
  intros E1 E2 H1 H2. unfold SerializeToString, bind, deref, ret.
  now rewrite E1, H1, E2, H2.
Qed.

Lemma serialize_new_pair (checker : Ptr AttributeChecker) (h : heap)
    (o1 o2 : AttributeValue) :
  SerializeToString
    {| m_first := Some (length h); m_second := Some (S (length h)) |}
    checker ((h ++ [o1]) ++ [o2]) =
  Done (v_SerializeToString o1 checker +:+ " " +:+
        v_SerializeToString o2 checker) ((h ++ [o1]) ++ [o2]).
Proof.
  eapply SerializeToString_eq; [reflexivity | reflexivity | |].
  - apply lookup_pair_fst.
  - apply lookup_pair_snd.
Qed.

(** C2, as the code has it.  Let the text of each component of [(x, y)]
    be a token (not empty, no whitespace), and let each component checker
    turn the text of its component back into an object of the component
    class that holds the same value.  Then serializing a pair value made
    from [(x, y)] and deserializing the text into a default-constructed
    pair value returns [true], and [Get] gives [(x, y)]. *)
Theorem roundtrip_tokens
    (x : first_type) (y : second_type) (checker : Ptr AttributeChecker)
    (pchecker fc sc : AttributeChecker) (o1 o2 : AttributeValue) (h : heap) :
  as_PairChecker checker = Some pchecker ->
  GetCheckers pchecker = (Some fc, Some sc) ->
  is_token (v_SerializeToString (Obj A (A_from x)) checker) = true ->
  is_token (v_SerializeToString (Obj B (B_from y)) checker) = true ->
  CreateValidValue fc (v_SerializeToString (Obj A (A_from x)) checker) = Some o1 ->
  CreateValidValue sc (v_SerializeToString (Obj B (B_from y)) checker) = Some o2 ->
  derives (dyn o1) A = true -> derives (dyn o2) B = true ->
  A_Get (data o1) = x -> B_Get (data o2) = y ->
  result (roundtrip (x, y) checker h) = Some (true, (x, y)).
Proof.
  intros Hp Hcs T1 T2 H1 H2 D1 D2 G1 G2.
  unfold roundtrip, PairValue_of.
  unfold bind at 1. rewrite Set_eq. cbn [fst snd].
  unfold bind at 1. rewrite serialize_new_pair.
  unfold bind at 1. rewrite PairValue_default_eq.
  set (h3 := (_ ++ [Obj B B_default])).
  unfold bind at 1.
  rewrite deserialize_unfold, Hp, Hcs. cbn [fst snd].
  rewrite (read_two_more _ _ _ [] (tokens_joined _ _ T1 T2)). cbn [fst snd].
  rewrite H1, D1, H2, D2.
  unfold bind. cbn [fst snd]. rewrite Get_new_pair.
  unfold ret. cbn [result]. now rewrite G1, G2.
Qed.

(** C8 (members present).  A pair value made by a public constructor, and
    then changed by [Set] and [DeserializeFromString] in any order, has
    both members present; hence [Get] on it returns. *)
Theorem constructed_both_present (h : heap) (this : PairValue) :
  constructed h this ->
  both_present h this /\ exists value, Get this h = Done value h.
Proof.
  intros C.
  assert (P : both_present h this).
  { induction C as [h this h' E | value h this h' E
                   | h this value this' h' C IH E
                   | h this text checker ok this' h' C IH E
                   | h this o C IH].
    - rewrite PairValue_default_eq in E. injection E as <- <-.
      apply both_present_new_pair.
    - unfold PairValue_of in E. rewrite Set_eq in E. injection E as <- <-.
      apply both_present_new_pair.
    - rewrite Set_eq in E. injection E as <- <-.
      apply both_present_new_pair.
    - destruct (deserialize_Done _ _ _ _ _ _ _ E) as (k & -> & Hf & Ht).
      destruct ok.
      + destruct (Ht eq_refl) as (o1 & o2 & -> & ->).
        change [o1; o2] with ([o1] ++ [o2]). rewrite app_assoc.
        apply both_present_new_pair.
      + rewrite (Hf eq_refl). now apply both_present_frame.
    - now apply both_present_frame. }
  split; [exact P|].
  destruct P as (l1 & l2 & o1 & o2 & E1 & E2 & H1 & H2).
  eexists. eapply Get_eq; eassumption.
Qed.

(** C7, as the code has it.  [Copy] of a pair value whose two members are
    present, when the copies of the two members are objects of the
    component classes: the new pair value refers to two new objects, the
    copies of the members; the objects that existed before are untouched;
    and a later [Set] on either pair value leaves what [Get] reads from
    the other one as it was.  [Copy] of a pair value whose first member is
    null, over any store and whatever the component classes do, returns
    as well, and what it returns is a default-constructed pair value, with
    both members present. *)
Theorem copy_independent (this : PairValue) (h : heap) :
  (forall (l1 l2 : loc) (o1 o2 : AttributeValue),
   m_first this = Some l1 -> m_second this = Some l2 ->
   h !! l1 = Some o1 -> h !! l2 = Some o2 ->
   derives (dyn (v_Copy o1)) A = true ->
   derives (dyn (v_Copy o2)) B = true ->
   exists c h1 c1 c2,
     Copy this h = Done c h1 /\
     h `prefix_of` h1 /\
     m_first c = Some c1 /\ m_second c = Some c2 /\
     length h <= c1 /\ length h <= c2 /\ c1 <> c2 /\
     h1 !! c1 = Some (v_Copy o1) /\ h1 !! c2 = Some (v_Copy o2) /\
     Get c h1 = Done (A_Get (data (v_Copy o1)), B_Get (data (v_Copy o2))) h1 /\
     Get this h1 = Done (A_Get (data o1), B_Get (data o2)) h1 /\
     (forall value, exists this' h2,
        Set_ this value h1 = Done this' h2 /\
        result (Get c h2) = result (Get c h1)) /\
     (forall value, exists c' h2,
        Set_ c value h1 = Done c' h2 /\
        result (Get this h2) = result (Get this h1))) /\
  (m_first this = None ->
   exists c h1,
     Copy this h = Done c h1 /\
     PairValue_default h = Done c h1 /\
     both_present h1 c /\
     Get c h1 = Done (A_Get A_default, B_Get B_default) h1).
Proof.
  split.
  - intros l1 l2 o1 o2 E1 E2 H1 H2 D1 D2.
    pose proof (Copy_eq this h l1 l2 o1 o2 E1 E2 H1 H2) as C.
    rewrite D1, D2 in C.
    set (h0 := (h ++ [Obj A A_default]) ++ [Obj B B_default]) in *.
    set (h1 := (h0 ++ [v_Copy o1]) ++ [v_Copy o2]) in *.
    set (c := {| m_first := Some (length h0);
                 m_second := Some (S (length h0)) |}) in *.
    assert (L0 : length h0 = S (S (length h)))
      by (unfold h0; rewrite !length_app; simpl; lia).
    assert (L1 : length h1 = S (S (length h0)))
      by (unfold h1; rewrite !length_app; simpl; lia).
    assert (P : h `prefix_of` h1).
    { exists ([Obj A A_default; Obj B B_default] ++ [v_Copy o1; v_Copy o2]).
      unfold h1, h0. now rewrite <- !app_assoc. }
    assert (Vc : valid h1 c).
    { split; intros l [= <-]; lia. }
    assert (Vt : valid h1 this).
    { apply lookup_lt_Some in H1, H2.
      split; intros l El; [rewrite E1 in El | rewrite E2 in El];
        injection El as <-; lia. }
    assert (Gc : Get c h1 =
                 Done (A_Get (data (v_Copy o1)), B_Get (data (v_Copy o2))) h1)
      by apply Get_new_pair.
    assert (Gt : Get this h1 = Done (A_Get (data o1), B_Get (data o2)) h1).
    { eapply Get_eq; [exact E1 | exact E2 | |];
        eapply prefix_lookup_Some; eassumption. }
    exists c, h1, (length h0), (S (length h0)).
    split; [exact C|]. split; [exact P|].
    split; [reflexivity|]. split; [reflexivity|].
    split; [lia|]. split; [lia|]. split; [lia|].
    split; [apply lookup_pair_fst|]. split; [apply lookup_pair_snd|].
    split; [exact Gc|]. split; [exact Gt|]. split.
    + intros value. eexists _, _. split; [apply Set_eq|].
      rewrite <- app_assoc. now apply Get_frame.
    + intros value. eexists _, _. split; [apply Set_eq|].
      rewrite <- app_assoc. now apply Get_frame.
  - intros E. exists
      {| m_first := Some (length h); m_second := Some (S (length h)) |},
      ((h ++ [Obj A A_default]) ++ [Obj B B_default]).
    split; [|split; [|split]].
    + unfold Copy. unfold bind. rewrite PairValue_default_eq, E. reflexivity.
    + apply PairValue_default_eq.
    + apply both_present_new_pair.
    + apply Get_new_pair.
Qed.

End Values.

(** ** The name of a pair checker *)

Section Names.
Context `{OM : ObjectModel} `{MT : !Methods}.

Lemma append_prefix_inj (s t t' : string) : s +:+ t = s +:+ t' -> t = t'.
Proof.
  induction s as [|c s IH]; [trivial|].
  rewrite !append_cons. intros [= E]. now apply IH.
Qed.

Lemma append_closing_inj (n n' : string) : n +:+ ">" = n' +:+ ">" -> n = n'.
Proof.
  revert n'; induction n as [|c n IH]; intros [|c' n'].
  - reflexivity.
  - rewrite append_nil, append_cons. intros [= _ E].
    destruct n'; discriminate E.
  - rewrite append_nil, append_cons. intros [= _ E].
    destruct n; discriminate E.
  - rewrite !append_cons. intros [= -> E]. f_equal. now apply IH.
Qed.

(** The first comma of the name ends the first type name when type names
    hold no comma. *)
Lemma append_separator_inj (n n' r r' : string) :
  no_comma n = true -> no_comma n' = true ->
  n +:+ ", " +:+ r = n' +:+ ", " +:+ r' -> n = n' /\ r = r'.
Proof.
  revert n'; induction n as [|c n IH]; intros [|c' n'];
    cbn [no_comma]; intros N N'.
  - rewrite !append_nil. intros E. split; [reflexivity|].
    now apply append_prefix_inj in E.
  - apply andb_prop in N' as [N' _].
    rewrite append_nil, !append_cons. intros [= <- _]. discriminate N'.
  - apply andb_prop in N as [N _].
    rewrite append_nil, !append_cons. intros [= -> _]. discriminate N.
  - apply andb_prop in N as [_ N]. apply andb_prop in N' as [_ N'].
    rewrite !append_cons. intros [= -> E].
    destruct (IH _ N N' E) as [-> ->]. now split.
Qed.

Lemma pairName_inj (a b a' b' : cls) :
  (forall c d, typeid_name c = typeid_name d -> c = d) ->
  (forall c, no_comma (typeid_name c) = true) ->
  pairName a b = pairName a' b' -> a = a' /\ b = b'.
Proof.
  intros Hinj Hcomma. unfold pairName. intros E.
  apply append_prefix_inj in E.
  apply append_separator_inj in E as [E1 E2]; [|apply Hcomma..].
  apply append_closing_inj in E2.
  split; now apply Hinj.
Qed.

(** C9, as the code has it.  The name of the checker that
    [MakePairChecker<A, B>()] builds is a function of the two type names
    ["ns3::PairValue<" first ", " second ">"], the same at every call.
    When the C++ implementation gives distinct types distinct names, and
    names without a comma, two instantiations with the same checker name
    have the same [A] and the same [B]; so do two with the same pair of
    names in swapped order. *)
Theorem pair_checker_name_unique (T T' : Template) :
  (forall c d, typeid_name c = typeid_name d -> c = d) ->
  (forall c, no_comma (typeid_name c) = true) ->
  GetValueTypeName (MakePairChecker0 (TP := T)) =
    "ns3::PairValue<" +:+ typeid_name (A (Template := T)) +:+ ", "
      +:+ typeid_name (B (Template := T)) +:+ ">" /\
  (GetValueTypeName (MakePairChecker0 (TP := T)) =
   GetValueTypeName (MakePairChecker0 (TP := T')) ->
   A (Template := T) = A (Template := T') /\
   B (Template := T) = B (Template := T')) /\
  (pairName (A (Template := T)) (B (Template := T)) =
   pairName (B (Template := T)) (A (Template := T)) ->
   A (Template := T) = B (Template := T)).
Proof.
  intros Hinj Hcomma. split; [reflexivity|]. split.
  - intros E. now apply pairName_inj.
  - intros E. now apply pairName_inj in E as [E _].
Qed.

End Names.

(** ** Further properties of the member functions *)

Section Extension.
Context `{OM : ObjectModel}.

Lemma extends_ret {X} (x : X) : extends (ret x).
Proof. intros h y h' [= _ <-]. exists []. now rewrite app_nil_r. Qed.

Lemma extends_fault {X} : extends (@fault OM X).
Proof. intros h y h' E. discriminate E. Qed.

Lemma extends_bind {X Y} (m : M X) (k : X -> M Y) :
  extends m -> (forall x, extends (k x)) -> extends (bind m k).
Proof.
  intros Hm Hk h y h'. unfold bind.
  destruct (m h) as [x h1|] eqn:E; [|discriminate].
  intros E'. destruct (Hm _ _ _ E) as (k1 & ->).
  destruct (Hk x _ _ _ E') as (k2 & ->).
  exists (k1 ++ k2). now rewrite app_assoc.
Qed.

Lemma extends_alloc (o : AttributeValue) : extends (alloc o).
Proof. intros h l h' [= _ <-]. now exists [o]. Qed.

Lemma extends_deref (p : Ptr loc) : extends (deref p).
Proof.
  intros h o h'. unfold deref. destruct p as [l|]; [|discriminate].
  destruct (h !! l); [|discriminate].
  intros [= _ <-]. exists []. now rewrite app_nil_r.
Qed.

Lemma extends_DynamicCast (T : cls) (p : Ptr loc) : extends (DynamicCast T p).
Proof.
  intros h o h'. unfold DynamicCast. destruct p as [l|].
  - destruct (h !! l); [|discriminate].
    intros [= _ <-]. exists []. now rewrite app_nil_r.
  - intros [= _ <-]. exists []. now rewrite app_nil_r.
Qed.

End Extension.

Section Operations.
Context `{OM : ObjectModel} `{MT : !Methods} `{TP : !Template}.
Local Open Scope pair_monad_scope.

Lemma extends_PairValue_default : extends PairValue_default.
Proof.
  unfold PairValue_default.
  repeat (apply extends_bind; [|intros ?]);
    auto using extends_alloc, extends_ret.
Qed.

Lemma extends_Set (this : PairValue) value : extends (Set_ this value).
Proof.
  unfold Set_.
  repeat (apply extends_bind; [|intros ?]);
    auto using extends_alloc, extends_ret.
Qed.

Lemma extends_Copy (this : PairValue) : extends (Copy this).
Proof.
  unfold Copy. apply extends_bind; [apply extends_PairValue_default|].
  intros p. destruct (m_first this); [|apply extends_ret].
  repeat (apply extends_bind; [|intros ?]);
    auto using extends_alloc, extends_ret, extends_deref,
               extends_DynamicCast.
Qed.

(** X1.  After [Set (value)], on any pair value, and after construction
    from [value], [Get] returns [value]: both calls return, and leave both
    members present.  The component classes are taken to return from
    [Get] what their constructor was given. *)
Theorem Set_then_Get (this : PairValue) (value : result_type) (h : heap) :
  A_Get (A_from (fst value)) = fst value ->
  B_Get (B_from (snd value)) = snd value ->
  (exists this' h',
     Set_ this value h = Done this' h' /\
     both_present h' this' /\
     Get this' h' = Done value h') /\
  (exists this' h',
     PairValue_of value h = Done this' h' /\
     both_present h' this' /\
     Get this' h' = Done value h').
Proof.
  intros GA GB.
  assert (S : forall p, exists this' h',
             Set_ p value h = Done this' h' /\
             both_present h' this' /\ Get this' h' = Done value h').
  { intros p. eexists _, _. split; [apply Set_eq|].
    split; [apply both_present_new_pair|].
    rewrite Get_new_pair. cbn [data]. rewrite GA, GB.
    now destruct value. }
  split; [apply S | apply (S {| m_first := None; m_second := None |})].
Qed.

(** X2.  No member function changes what another pair value reads:
    whenever [Set], a constructor, [Copy] or [DeserializeFromString]
    returns, [Get] on any pair value without dangling members gives what
    it gave before the call; [SerializeToString] and [Get] leave the store
    as it is. *)
Theorem operations_leave_others (other : PairValue) (h : heap) :
  valid h other ->
  (forall this value this' h',
     Set_ this value h = Done this' h' ->
     result (Get other h') = result (Get other h)) /\
  (forall this' h',
     PairValue_default h = Done this' h' ->
     result (Get other h') = result (Get other h)) /\
  (forall this copy h',
     Copy this h = Done copy h' ->
     result (Get other h') = result (Get other h)) /\
  (forall this text checker r h',
     DeserializeFromString this text checker h = Done r h' ->
     result (Get other h') = result (Get other h)) /\
  (forall this checker text h',
     SerializeToString this checker h = Done text h' -> h' = h) /\
  (forall this value h', Get this h = Done value h' -> h' = h).
Proof.
  intros V. repeat split.
  - intros this value this' h' E.
    destruct (extends_Set _ _ _ _ _ E) as (k & ->). now apply Get_frame.
  - intros this' h' E.
    destruct (extends_PairValue_default _ _ _ E) as (k & ->).
    now apply Get_frame.
  - intros this copy h' E.
    destruct (extends_Copy _ _ _ _ E) as (k & ->). now apply Get_frame.
  - intros this text checker [ok this'] h' E.
    destruct (deserialize_Done _ _ _ _ _ _ _ E) as (k & -> & _).
    now apply Get_frame.
  - intros this checker text h'. unfold SerializeToString, bind, deref, ret.
    destruct (m_first this) as [l1|]; [|discriminate].
    destruct (h !! l1); [|discriminate].
    destruct (m_second this) as [l2|]; [|discriminate].
    destruct (h !! l2); [|discriminate]. now intros [= _ <-].
  - intros this value h'. unfold Get, bind, deref, ret.
    destruct (m_first this) as [l1|]; [|discriminate].
    destruct (h !! l1); [|discriminate].
    destruct (m_second this) as [l2|]; [|discriminate].
    destruct (h !! l2); [|discriminate]. now intros [= _ <-].
Qed.

(** X3.  [Get], [SerializeToString] and [GetAccessor] return exactly on
    the pair values whose two members are present; with a member missing
    they dereference a null pointer.  When [GetAccessor] returns, it
    returns [true] with the converted result of [Get]. *)
Theorem readers_return_iff_present (this : PairValue) (h : heap) :
  ((exists value, Get this h = Done value h) <-> both_present h this) /\
  (forall checker,
     (exists text, SerializeToString this checker h = Done text h)
     <-> both_present h this) /\
  (forall (T : Type) (conv : result_type -> T),
     (exists r, GetAccessor conv this h = Done r h) <-> both_present h this) /\
  (forall (T : Type) (conv : result_type -> T) r h',
     GetAccessor conv this h = Done r h' ->
     exists value, Get this h = Done value h /\ r = (true, conv value) /\ h' = h) /\
  (both_present h this \/
   (Get this h = Fault /\
    (forall checker, SerializeToString this checker h = Fault) /\
    (forall (T : Type) (conv : result_type -> T),
       GetAccessor conv this h = Fault))).
Proof.
  unfold both_present, GetAccessor, SerializeToString, Get, bind, deref, ret.
  destruct (m_first this) as [l1|] eqn:E1.
  2:{ repeat split; try (intros (? & ?); discriminate);
        try (intros (? & ? & ? & ? & ? & _); discriminate);
        try discriminate.
      right. repeat split. }
  destruct (h !! l1) as [o1|] eqn:H1.
  2:{ repeat split; try (intros (? & ?); discriminate);
        try (intros (? & ? & ? & ? & [= <-] & _ & ? & _); congruence);
        try discriminate.
      right. repeat split. }
  destruct (m_second this) as [l2|] eqn:E2.
  2:{ repeat split; try (intros (? & ?); discriminate);
        try (intros (? & ? & ? & ? & _ & ? & _); discriminate);
        try discriminate.
      right. repeat split. }
  destruct (h !! l2) as [o2|] eqn:H2.
  2:{ repeat split; try (intros (? & ?); discriminate);
        try (intros (? & ? & ? & ? & _ & [= <-] & _ & ?); congruence);
        try discriminate.
      right. repeat split. }
  assert (P : exists l1' l2' o1' o2',
             Some l1 = Some l1' /\ Some l2 = Some l2' /\
             h !! l1' = Some o1' /\ h !! l2' = Some o2')
    by (exists l1, l2, o1, o2; auto).
  repeat split; try (intros _; exact P); try (intros _; eauto).
  - intros T conv r h' [= <- <-]. eauto.
  - left. exact P.
Qed.

(** X4.  What a [true] return means: the checker is a pair checker with
    both component checkers set, each component checker has accepted the
    word read for it and created an object of the component class, these
    two objects are the only ones added to the store, they are the new
    members, and [Get] reads them. *)
Theorem deserialize_true_installs
    (this this' : PairValue) (value : string)
    (checker : Ptr AttributeChecker) (h h' : heap) :
  DeserializeFromString this value checker h = Done (true, this') h' ->
  exists pchecker fc sc o1 o2,
    as_PairChecker checker = Some pchecker /\
    GetCheckers pchecker = (Some fc, Some sc) /\
    CreateValidValue fc (fst (read_two value)) = Some o1 /\
    derives (dyn o1) A = true /\
    CreateValidValue sc (snd (read_two value)) = Some o2 /\
    derives (dyn o2) B = true /\
    h' = h ++ [o1; o2] /\
    this' = {| m_first := Some (length h); m_second := Some (S (length h)) |} /\
    Get this' h' = Done (A_Get (data o1), B_Get (data o2)) h'.
Proof.
  rewrite deserialize_unfold.
  destruct (as_PairChecker checker) as [pchecker|]; [|discriminate].
  destruct (GetCheckers pchecker) as [[fc|] sc] eqn:G; cbn [fst snd];
    [|discriminate].
  destruct (CreateValidValue fc _) as [o1|] eqn:H1; [|discriminate].
  destruct (derives (dyn o1) A) eqn:D1; [|discriminate].
  destruct sc as [sc|]; [|discriminate].
  destruct (CreateValidValue sc _) as [o2|] eqn:H2; [|discriminate].
  destruct (derives (dyn o2) B) eqn:D2; [|discriminate].
  intros [= <- <-]. exists pchecker, fc, sc, o1, o2.
  repeat split; try assumption; try reflexivity.
  - now rewrite <- app_assoc.
  - apply Get_new_pair.
Qed.

(** X5.  The call never looks at the members the pair value holds: on two
    pair values it returns the same flag and leaves the same store, or
    faults on both. *)
Theorem deserialize_ignores_current
    (this1 this2 : PairValue) (value : string)
    (checker : Ptr AttributeChecker) (h : heap) :
  match DeserializeFromString this1 value checker h,
        DeserializeFromString this2 value checker h with
  | Done (ok1, new1) h1, Done (ok2, new2) h2 =>
      ok1 = ok2 /\ h1 = h2 /\ (ok1 = true -> new1 = new2)
  | Fault, Fault => True
  | _, _ => False
  end.
Proof.
  rewrite !deserialize_unfold.
  destruct (as_PairChecker checker) as [pchecker|]; [|easy].
  destruct (fst (GetCheckers pchecker)) as [fc|]; [|easy].
  destruct (CreateValidValue fc _) as [o1|]; [|easy].
  destruct (derives (dyn o1) A); [|easy].
  destruct (snd (GetCheckers pchecker)) as [sc|]; [|easy].
  destruct (CreateValidValue sc _) as [o2|]; [|easy].
  destruct (derives (dyn o2) B); easy.
Qed.

(** X6.  Whitespace around and between tokens does not matter: two texts
    with the same tokens, at least one, give the same outcome. *)
Theorem deserialize_whitespace_insensitive
    (this : PairValue) (value value' : string)
    (checker : Ptr AttributeChecker) (h : heap) :
  tokens value = tokens value' ->
  tokens value <> [] ->
  DeserializeFromString this value checker h =
  DeserializeFromString this value' checker h.
Proof.
  intros E N. apply deserialize_words.
  destruct (tokens value) as [|t1 [|t2 rest]] eqn:T; [congruence| |].
  - now rewrite (read_two_one _ _ T), (read_two_one _ _ (eq_sym E)).
  - now rewrite (read_two_more _ _ _ _ T), (read_two_more _ _ _ _ (eq_sym E)).
Qed.

(** X7.  A text without any token, empty or all whitespace: both
    extractions fail, and both component checkers are asked about the
    whole text as it came in.  The call returns [false] when the first
    one rejects it, and [true] when both accept it with objects of the
    component classes. *)
Theorem deserialize_blank_text
    (this : PairValue) (value : string) (checker : Ptr AttributeChecker)
    (pchecker fc sc : AttributeChecker) (h : heap) :
  tokens value = [] ->
  as_PairChecker checker = Some pchecker ->
  GetCheckers pchecker = (Some fc, Some sc) ->
  read_two value = (value, value) /\
  (CreateValidValue fc value = None ->
   DeserializeFromString this value checker h = Done (false, this) h) /\
  (forall o1 o2,
     CreateValidValue fc value = Some o1 -> derives (dyn o1) A = true ->
     CreateValidValue sc value = Some o2 -> derives (dyn o2) B = true ->
     DeserializeFromString this value checker h =
       Done (true, {| m_first := Some (length h);
                      m_second := Some (S (length h)) |})
            (h ++ [o1; o2])).
Proof.
  intros T Hp Hcs. pose proof (read_two_none _ T) as R.
  split; [exact R|].
  rewrite deserialize_unfold, Hp, Hcs, R. cbn [fst snd]. split.
  - now intros ->.
  - intros o1 o2 -> -> -> ->. now rewrite <- app_assoc.
Qed.

(** X9.  Reading a text and writing the pair value back normalizes the
    text: when the call returns [true] on a text with two tokens or more,
    and the objects made from the first two tokens serialize to these
    tokens, [SerializeToString] then gives the first token, one space,
    and the second token. *)
Theorem deserialize_then_serialize
    (this this' : PairValue) (value t1 t2 : string) (rest : list string)
    (checker : Ptr AttributeChecker) (pchecker fc sc : AttributeChecker)
    (h h' : heap) :
  tokens value = t1 :: t2 :: rest ->
  as_PairChecker checker = Some pchecker ->
  GetCheckers pchecker = (Some fc, Some sc) ->
  (forall o, CreateValidValue fc t1 = Some o ->
             v_SerializeToString o checker = t1) ->
  (forall o, CreateValidValue sc t2 = Some o ->
             v_SerializeToString o checker = t2) ->
  DeserializeFromString this value checker h = Done (true, this') h' ->
  SerializeToString this' checker h' = Done (t1 +:+ " " +:+ t2) h'.
Proof.
  intros T Hp Hcs S1 S2.
  rewrite deserialize_unfold, Hp, Hcs, (read_two_more _ _ _ _ T).
  cbn [fst snd].
  destruct (CreateValidValue fc t1) as [o1|] eqn:H1; [|discriminate].
  destruct (derives (dyn o1) A); [|discriminate].
  destruct (CreateValidValue sc t2) as [o2|] eqn:H2; [|discriminate].
  destruct (derives (dyn o2) B); [|discriminate].
  intros [= <- <-]. rewrite serialize_new_pair.
  now rewrite (S1 _ eq_refl), (S2 _ eq_refl).
Qed.

(** X10.  [Copy] keeps the copy of a member only if it is an object of
    the component class.  When the copy of the first member is not, the
    new pair value has a null first member, and [Get] and
    [SerializeToString] on it dereference a null pointer. *)
Theorem copy_drops_foreign_member
    (this : PairValue) (h : heap) (l1 l2 : loc) (o1 o2 : AttributeValue) :
  m_first this = Some l1 -> m_second this = Some l2 ->
  h !! l1 = Some o1 -> h !! l2 = Some o2 ->
  derives (dyn (v_Copy o1)) A = false ->
  exists copy h',
    Copy this h = Done copy h' /\
    m_first copy = None /\
    Get copy h' = Fault /\
    (forall checker, SerializeToString copy checker h' = Fault).
Proof.
  intros E1 E2 H1 H2 D.
  pose proof (Copy_eq this h l1 l2 o1 o2 E1 E2 H1 H2) as C.
  rewrite D in C. cbv zeta in C.
  eexists _, _. split; [exact C|]. repeat split.
Qed.

(** X12.  With the checker that [MakePairChecker<A, B>(first, second)]
    returns for two component checkers that are not null,
    [DeserializeFromString] returns on every text, and returns [true]
    exactly when both component checkers accept their word with an object
    of the component class. *)
Theorem deserialize_with_made_checker
    (this : PairValue) (value : string) (fc sc checker : AttributeChecker)
    (h0 h : heap) :
  MakePairChecker (Some fc) (Some sc) h0 = Done checker h0 ->
  exists ok this' h',
    DeserializeFromString this value (Some checker) h = Done (ok, this') h' /\
    (ok = true <->
     exists o1 o2,
       CreateValidValue fc (fst (read_two value)) = Some o1 /\
       derives (dyn o1) A = true /\
       CreateValidValue sc (snd (read_two value)) = Some o2 /\
       derives (dyn o2) B = true).
Proof.
  intros [= <-]. rewrite deserialize_unfold. cbn [as_PairChecker pair_part
    SetCheckers GetCheckers fst snd].
  destruct (CreateValidValue fc _) as [o1|] eqn:H1.
  2:{ eexists _, _, _. split; [reflexivity|].
      split; [discriminate | intros (? & ? & ? & _); discriminate]. }
  destruct (derives (dyn o1) A) eqn:D1.
  2:{ eexists _, _, _. split; [reflexivity|].
      split; [discriminate | intros (? & ? & [= <-] & ? & _); congruence]. }
  destruct (CreateValidValue sc _) as [o2|] eqn:H2.
  2:{ eexists _, _, _. split; [reflexivity|].
      split; [discriminate | intros (? & ? & _ & _ & ? & _); discriminate]. }
  destruct (derives (dyn o2) B) eqn:D2.
  - eexists _, _, _. split; [reflexivity|].
    split; [intros _; now exists o1, o2 | reflexivity].
  - eexists _, _, _. split; [reflexivity|].
    split; [discriminate|].
    intros (? & ? & _ & _ & [= <-] & ?); congruence.
Qed.

End Operations.

(** ** Printing a pair *)

Section Printing.
Context {X Y : Type} (show_first : X -> string) (show_second : Y -> string).

Lemma append_comma_inj (n n' r r' : string) :
  no_comma n = true -> no_comma n' = true ->
  n +:+ "," +:+ r = n' +:+ "," +:+ r' -> n = n' /\ r = r'.
Proof.
  revert n'; induction n as [|c n IH]; intros [|c' n'];
    cbn [no_comma]; intros N N'.
  - rewrite !append_nil, !append_cons, !append_nil. now intros [= ->].
  - apply andb_prop in N' as [N' _].
    rewrite append_nil, !append_cons. intros [= <- _]. discriminate N'.
  - apply andb_prop in N as [N _].
    rewrite append_nil, !append_cons. intros [= -> _]. discriminate N.
  - apply andb_prop in N as [_ N]. apply andb_prop in N' as [_ N'].
    rewrite !append_cons. intros [= -> E].
    destruct (IH _ N N' E) as [-> ->]. now split.
Qed.

Lemma append_paren_inj (n n' : string) : n +:+ ")" = n' +:+ ")" -> n = n'.
Proof.
  revert n'; induction n as [|c n IH]; intros [|c' n'].
  - reflexivity.
  - rewrite append_nil, append_cons. intros [= _ E].
    destruct n'; discriminate E.
  - rewrite append_nil, append_cons. intros [= _ E].
    destruct n; discriminate E.
  - rewrite !append_cons. intros [= -> E]. f_equal. now apply IH.
Qed.

(** X13.  The text that [operator<<] writes for a pair can be read back
    when the first member is written without a comma: two pairs written
    alike after the same stream contents have members that are written
    alike. *)
Theorem print_pair_unambiguous (os : string) (p q : X * Y) :
  no_comma (show_first (fst p)) = true ->
  no_comma (show_first (fst q)) = true ->
  print_pair show_first show_second os p
    = print_pair show_first show_second os q ->
  show_first (fst p) = show_first (fst q) /\
  show_second (snd p) = show_second (snd q).
Proof.
  intros Np Nq. unfold print_pair. intros E.
  apply append_prefix_inj in E.
  rewrite !append_cons, !append_nil in E. injection E as E.
  apply append_comma_inj in E as [E1 E2]; [|assumption..].
  split; [exact E1|]. now apply append_paren_inj.
Qed.

End Printing.

(** ** The client program: instances of the theorems, and inputs on which
    the behaviour differs from the description *)

Import Demo.
#[local] Existing Instance objects.

Lemma valid_pair01 : valid store78 pair01.
Proof. split; intros l [= <-]; simpl; lia. Defined.

(** The second word is rejected after the object for the first one has
    been created: [false], and the pair value still reads [(7, 8)]. *)
Lemma deserialize_failure_atomic_witness :
  DeserializeFromString (TP := num_num) pair01 "4 abc" nn_checker store78
    = Done (false, pair01) (store78 ++ [Obj Num (FNum 4)]) /\
  (pair01 = pair01 /\
   store78 `prefix_of` (store78 ++ [Obj Num (FNum 4)]) /\
   result (Get (TP := num_num) pair01 (store78 ++ [Obj Num (FNum 4)]))
     = result (Get (TP := num_num) pair01 store78)).
Proof.
  assert (D : DeserializeFromString (TP := num_num) pair01 "4 abc"
                nn_checker store78
              = Done (false, pair01) (store78 ++ [Obj Num (FNum 4)]))
    by (vm_compute; reflexivity).
  split; [exact D|].
  exact (deserialize_failure_atomic (TP := num_num) pair01 pair01 "4 abc"
           nn_checker store78 _ valid_pair01 D).
Defined.

(** C3.  The text ["3"] has one token, yet the call returns [true] with
    component checkers that accept ["3"]: the pair value that read
    [(7, 8)] now reads [(3, 3)]. *)
Theorem deserialize_single_token_accepted :
  tokens "3" = ["3"] /\
  read_two "3" = ("3", "3") /\
  result (Get (TP := num_num) pair01 store78) = Some (7, 8) /\
  DeserializeFromString (TP := num_num) pair01 "3" nn_checker store78
    = Done (true, {| m_first := Some 2; m_second := Some 3 |})
           (store78 ++ [Obj Num (FNum 3); Obj Num (FNum 3)]) /\
  result (Get (TP := num_num) {| m_first := Some 2; m_second := Some 3 |}
            (store78 ++ [Obj Num (FNum 3); Obj Num (FNum 3)])) = Some (3, 3).
Proof. repeat split; vm_compute; reflexivity. Qed.

(** A text with three tokens whose first token is rejected behaves as
    the text of its first two tokens; one whose first two tokens are
    accepted installs them. *)
Lemma deserialize_ignores_extra_tokens_witness :
  tokens "x 4 junk" = ["x"; "4"; "junk"] /\
  DeserializeFromString (TP := num_num) pair01 "x 4 junk" nn_checker store78
    = DeserializeFromString (TP := num_num) pair01 "x 4" nn_checker store78 /\
  DeserializeFromString (TP := num_num) pair01 " 3  4 junk" nn_checker store78
    = Done (true, {| m_first := Some 2; m_second := Some 3 |})
           (store78 ++ [Obj Num (FNum 3); Obj Num (FNum 4)]).
Proof.
  assert (T : tokens "x 4 junk" = ["x"; "4"; "junk"]) by reflexivity.
  split; [exact T|]. split.
  - exact (proj1 (deserialize_ignores_extra_tokens (TP := num_num) pair01
                    "x 4 junk" "x" "4" "junk" [] nn_checker store78 T)).
  - refine (proj1 (proj2 (proj2
      (deserialize_ignores_extra_tokens (TP := num_num) pair01 " 3  4 junk"
         "3" "4" "junk" [] nn_checker store78 _))
      (SetCheckers (MakePairChecker0 (MT := methods) (TP := num_num))
         (Some num_checker) (Some num_checker))
      num_checker num_checker
      (@Obj objects Num (FNum 3)) (@Obj objects Num (FNum 4))
      _ _ _ _ _ _)); vm_compute; reflexivity.
Defined.

(** C4 fails on the checker that [MakePairChecker<Num, Num>()] returns,
    whose component checkers have not been set: the call does not return
    [false], it dereferences the null first checker. *)
Lemma deserialize_unset_checker_counterexample :
  pair_part (MakePairChecker0 (MT := methods) (TP := num_num))
    = Some (None, None) /\
  DeserializeFromString (TP := num_num) pair01 "3 4"
    (Some (MakePairChecker0 (MT := methods) (TP := num_num))) store78 = Fault /\
  ~ (exists ok this' h',
       DeserializeFromString (TP := num_num) pair01 "3 4"
         (Some (MakePairChecker0 (MT := methods) (TP := num_num))) store78
       = Done (ok, this') h').
Proof.
  split; [reflexivity|]. split; [vm_compute; reflexivity|].
  intros (ok & this' & h' & E). vm_compute in E. discriminate E.
Qed.

(** The first word of ["x 4"] is rejected: the call returns, and the
    flag is [false]. *)
Lemma deserialize_returns_witness :
  usable nn_checker = true /\
  CreateValidValue num_checker (fst (read_two "x 4")) = None /\
  exists this' h',
    DeserializeFromString (TP := num_num) pair01 "x 4" nn_checker store78
      = Done (false, this') h' /\
    this' = pair01.
Proof.
  assert (U : usable nn_checker = true) by (vm_compute; reflexivity).
  assert (R : CreateValidValue num_checker (fst (read_two "x 4")) = None)
    by (vm_compute; reflexivity).
  split; [exact U|]. split; [exact R|].
  destruct (deserialize_returns (TP := num_num) pair01 "x 4" nn_checker
              store78 U)
    as (ok & this' & h' & E & Hsame & _ & Hfail).
  destruct (Hfail
              (SetCheckers (MakePairChecker0 (MT := methods) (TP := num_num))
                 (Some num_checker) (Some num_checker))
              num_checker num_checker eq_refl eq_refl)
    as (Hrej & _).
  pose proof (Hrej R) as Hok. subst ok.
  exists this', h'. split; [exact E | exact (Hsame eq_refl)].
Defined.

(** C5 fails for a first checker that creates objects of a class derived
    from [A]: the object is not of class [Num], and the call returns
    [true]. *)
Lemma deserialize_derived_class_counterexample :
  CreateValidValue subnum_checker "3" = Some (Obj SubNum (FNum 3)) /\
  SubNum <> A (Template := num_num) /\
  DeserializeFromString (TP := num_num) pair01 "3 4"
    (pair_checker num_num subnum_checker num_checker) store78
  = Done (true, {| m_first := Some 2; m_second := Some 3 |})
         (store78 ++ [Obj SubNum (FNum 3); Obj Num (FNum 4)]).
Proof.
  split; [vm_compute; reflexivity|]. split; [discriminate|].
  vm_compute; reflexivity.
Qed.

(** A first checker that accepts every string and creates [Str] objects,
    in a [PairValue<Num, Num>]: accepted, and [false]. *)
Lemma deserialize_true_iff_witness :
  DeserializeFromString (TP := num_num) pair01 "3 4"
    (pair_checker num_num str_checker num_checker) store78
  = Done (false, pair01) (store78 ++ [Obj Str (FStr "3")]).
Proof.
  refine (proj1 (proj2
    (deserialize_true_iff (TP := num_num) pair01 "3 4"
       (pair_checker num_num str_checker num_checker)
       (SetCheckers (MakePairChecker0 (MT := methods) (TP := num_num))
          (Some str_checker) (Some num_checker))
       str_checker num_checker store78 _ _)) (Obj Str (FStr "3")) _ _);
    vm_compute; reflexivity.
Defined.

(** C2 fails for a component whose text contains a space.  Each component
    of [("a b", "c")] round-trips through its own checker, but the pair
    does not: the text is ["a b c"], the call returns [true], and [Get]
    gives [("a", "b")]. *)
Lemma roundtrip_whitespace_counterexample :
  let checker := pair_checker str_str str_checker str_checker in
  CreateValidValue str_checker
    (v_SerializeToString (Methods := methods) (Obj Str (FStr "a b")) checker)
    = Some (Obj Str (FStr "a b")) /\
  CreateValidValue str_checker
    (v_SerializeToString (Methods := methods) (Obj Str (FStr "c")) checker)
    = Some (Obj Str (FStr "c")) /\
  result (roundtrip (MT := methods) (TP := str_str) ("a b", "c") checker [])
    = Some (true, ("a", "b")) /\
  result (roundtrip (MT := methods) (TP := str_str) ("a b", "c") checker [])
    <> Some (true, ("a b", "c")).
Proof.
  cbv zeta. split; [vm_compute; reflexivity|].
  split; [vm_compute; reflexivity|].
  split; [vm_compute; reflexivity|].
  vm_compute. discriminate.
Qed.

(** The pair [(3, 25)] of two numbers: the text is ["3 25"]. *)
Lemma roundtrip_tokens_witness :
  result (SerializeToString (MT := methods) pair01 nn_checker
            [Obj Num (FNum 3); Obj Num (FNum 25)]) = Some "3 25" /\
  result (roundtrip (MT := methods) (TP := num_num) (3, 25) nn_checker [])
    = Some (true, (3, 25)).
Proof.
  split; [vm_compute; reflexivity|].
  refine (roundtrip_tokens (MT := methods) (TP := num_num) 3 25 nn_checker
            (SetCheckers (MakePairChecker0 (MT := methods) (TP := num_num))
               (Some num_checker) (Some num_checker))
            num_checker num_checker (Obj Num (FNum 3)) (Obj Num (FNum 25)) []
            _ _ _ _ _ _ _ _ _ _); vm_compute; reflexivity.
Defined.

Lemma serialize_format_witness :
  SerializeToString (MT := methods) pair01 nn_checker store78
    = Done "7 8" store78.
Proof.
  refine (serialize_format (MT := methods) pair01 nn_checker store78 0 1
            (Obj Num (FNum 7)) (Obj Num (FNum 8)) _ _ _ _); reflexivity.
Defined.

(** C7 fails on a pair value without members: the copy is not without
    members, it has the two members of a default-constructed pair value.
    And with the first member present and the second one null, [Copy]
    dereferences the null pointer. *)
Lemma copy_empty_counterexample :
  Copy (MT := methods) (TP := num_num)
    {| m_first := None; m_second := None |} []
  = Done {| m_first := Some 0; m_second := Some 1 |}
         [Obj Num (FNum 0); Obj Num (FNum 0)] /\
  result (Copy (MT := methods) (TP := num_num)
            {| m_first := None; m_second := None |} [])
    <> Some {| m_first := None; m_second := None |} /\
  Copy (MT := methods) (TP := num_num)
    {| m_first := Some 0; m_second := None |} [Obj Num (FNum 7)] = Fault.
Proof.
  split; [vm_compute; reflexivity|].
  split; [vm_compute; discriminate | vm_compute; reflexivity].
Qed.

(** Copying the pair value that reads [(7, 8)]: the copy refers to the
    objects at 4 and 5, after the two of the default constructor.
    Copying a pair value without members over the empty store, with a
    class that inherits [Copy]: a default-constructed pair value. *)
Lemma copy_independent_witness :
  Copy (MT := methods) (TP := num_num) pair01 store78
  = Done {| m_first := Some 4; m_second := Some 5 |}
         (store78 ++ [Obj Num (FNum 0); Obj Num (FNum 0);
                      Obj Num (FNum 7); Obj Num (FNum 8)]) /\
  (exists c h1 c1 c2,
     Copy (MT := methods) (TP := num_num) pair01 store78 = Done c h1 /\
     m_first c = Some c1 /\ m_second c = Some c2 /\
     length store78 <= c1 /\ length store78 <= c2 /\
     (forall value, exists this' h2,
        Set_ (TP := num_num) pair01 value h1 = Done this' h2 /\
        result (Get (TP := num_num) c h2) = result (Get (TP := num_num) c h1))) /\
  (exists c h1,
     Copy (MT := inherited_copy) (TP := sub_sub)
       {| m_first := None; m_second := None |} [] = Done c h1 /\
     both_present h1 c /\
     Get (TP := sub_sub) c h1 = Done (0, 0) h1).
Proof.
  split; [vm_compute; reflexivity|]. split.
  - destruct (proj1 (copy_independent (OM := objects) (MT := methods)
                       (TP := num_num) pair01 store78) 0 1
                (@Obj objects Num (FNum 7)) (@Obj objects Num (FNum 8))
                eq_refl eq_refl eq_refl eq_refl eq_refl eq_refl)
      as (c & h1 & c1 & c2 & HC & _ & F1 & F2 & L1 & L2 & _ & _ & _ & _ & _ & S1 & _).
    exists c, h1, c1, c2. repeat split; assumption.
  - destruct (proj2 (copy_independent (OM := objects) (MT := inherited_copy)
                       (TP := sub_sub)
                       {| m_first := None; m_second := None |} []) eq_refl)
      as (c & h1 & HC & _ & P & G).
    exists c, h1. repeat split; assumption.
Defined.

(** A default-constructed [PairValue<Num, Num>], then [Set]. *)
Lemma constructed_both_present_witness :
  exists value,
    Get (TP := num_num) {| m_first := Some 2; m_second := Some 3 |}
      ([Obj Num (FNum 0); Obj Num (FNum 0)] ++
       [Obj Num (FNum 7); Obj Num (FNum 8)])
    = Done value ([Obj Num (FNum 0); Obj Num (FNum 0)] ++
                  [Obj Num (FNum 7); Obj Num (FNum 8)]).
Proof.
  refine (proj2 (constructed_both_present (TP := num_num) _ _ _)).
  refine (after_Set (TP := num_num) [Obj Num (FNum 0); Obj Num (FNum 0)]
            pair01 (7, 8) _ _ _ _).
  - exact (by_default (TP := num_num) [] pair01 _ eq_refl).
  - reflexivity.
Defined.

(** C9 fails under an implementation whose type names may hold a comma:
    [PairValue<Num, Str>] and [PairValue<Str, Num>] get one name.  It
    fails as well for two classes in unnamed namespaces that the
    implementation mangles alike: [PairValue<Num, Num>] and
    [PairValue<Str, Str>] get one name. *)
Lemma pair_checker_name_counterexample :
  (forall c d, readable_name c = readable_name d -> c = d) /\
  GetValueTypeName
    (MakePairChecker0 (MT := methods_named readable_name)
       (TP := template_named readable_name Num Str))
  = GetValueTypeName
      (MakePairChecker0 (MT := methods_named readable_name)
         (TP := template_named readable_name Str Num)) /\
  (Num, Str) <> (Str, Num) /\
  GetValueTypeName
    (MakePairChecker0 (MT := methods_named unnamed_namespace_name)
       (TP := template_named unnamed_namespace_name Num Num))
  = GetValueTypeName
      (MakePairChecker0 (MT := methods_named unnamed_namespace_name)
         (TP := template_named unnamed_namespace_name Str Str)) /\
  (Num, Num) <> (Str, Str).
Proof.
  split; [intros [] []; (reflexivity || discriminate)|].
  split; [vm_compute; reflexivity|]. split; [discriminate|].
  split; [vm_compute; reflexivity | discriminate].
Qed.

Lemma klass_name_inj (c d : klass) : klass_name c = klass_name d -> c = d.
Proof. destruct c, d; (reflexivity || discriminate). Defined.

Lemma klass_name_no_comma (c : klass) : no_comma (klass_name c) = true.
Proof. destruct c; reflexivity. Defined.

(** Under the names of the Itanium ABI. *)
Lemma pair_checker_name_unique_witness :
  GetValueTypeName (MakePairChecker0 (MT := methods) (TP := num_str))
    = "ns3::PairValue<N3ns33PtrINS_3NumEEE, N3ns33PtrINS_3StrEEE>" /\
  GetValueTypeName (MakePairChecker0 (MT := methods) (TP := num_str))
    <> GetValueTypeName (MakePairChecker0 (MT := methods) (TP := str_num)).
Proof.
  pose proof (pair_checker_name_unique (OM := objects) (MT := methods)
                num_str str_num klass_name_inj klass_name_no_comma)
    as (Hname & Huniq & _).
  split; [exact Hname|].
  intros E. destruct (Huniq E) as [EA _]. discriminate EA.
Defined.

(** ** Instances of the further properties *)

Lemma Set_then_Get_witness :
  exists this' h',
    Set_ (TP := num_num) pair01 (3, 4) store78 = Done this' h' /\
    both_present h' this' /\
    Get (TP := num_num) this' h' = Done (3, 4) h'.
Proof.
  exact (proj1 (Set_then_Get (TP := num_num) pair01 (3, 4) store78
                  eq_refl eq_refl)).
Defined.

(** Another pair value is set to [(3, 4)] next to the one that reads
    [(7, 8)]. *)
Lemma operations_leave_others_witness :
  valid store78 pair01 /\
  result (Get (TP := num_num) pair01
            (store78 ++ [Obj Num (FNum 3); Obj Num (FNum 4)]))
    = result (Get (TP := num_num) pair01 store78).
Proof.
  assert (V : valid store78 pair01)
    by (split; intros l [= <-]; simpl; lia).
  split; [exact V|].
  exact (proj1 (operations_leave_others (MT := methods) (TP := num_num)
                  pair01 store78 V)
           {| m_first := None; m_second := None |} (3, 4)
           {| m_first := Some 2; m_second := Some 3 |}
           (store78 ++ [@Obj objects Num (FNum 3); @Obj objects Num (FNum 4)])
           eq_refl).
Defined.

Lemma deserialize_true_installs_witness :
  exists pchecker fc sc o1 o2,
    as_PairChecker nn_checker = Some pchecker /\
    GetCheckers pchecker = (Some fc, Some sc) /\
    CreateValidValue fc (fst (read_two " 3  4")) = Some o1 /\
    derives (dyn o1) Num = true /\
    CreateValidValue sc (snd (read_two " 3  4")) = Some o2 /\
    derives (dyn o2) Num = true /\
    store78 ++ [Obj Num (FNum 3); Obj Num (FNum 4)] = store78 ++ [o1; o2] /\
    {| m_first := Some 2; m_second := Some 3 |}
      = {| m_first := Some (length store78);
           m_second := Some (S (length store78)) |} /\
    Get (TP := num_num) {| m_first := Some 2; m_second := Some 3 |}
        (store78 ++ [Obj Num (FNum 3); Obj Num (FNum 4)])
      = Done (num_of (data o1), num_of (data o2))
             (store78 ++ [Obj Num (FNum 3); Obj Num (FNum 4)]).
Proof.
  apply (deserialize_true_installs (TP := num_num) pair01
           {| m_first := Some 2; m_second := Some 3 |} " 3  4" nn_checker
           store78
           (store78 ++ [@Obj objects Num (FNum 3); @Obj objects Num (FNum 4)])).
  vm_compute; reflexivity.
Defined.

Lemma deserialize_whitespace_insensitive_witness :
  DeserializeFromString (TP := num_num) pair01 "  3   4 " nn_checker store78
  = DeserializeFromString (TP := num_num) pair01 "3 4" nn_checker store78.
Proof.
  apply (deserialize_whitespace_insensitive (TP := num_num)).
  - vm_compute; reflexivity.
  - vm_compute; discriminate.
Defined.

(** Two spaces, read into a [PairValue<Str, Str>]: [true], and both
    members hold the two spaces. *)
Lemma deserialize_blank_text_witness :
  DeserializeFromString (TP := str_str) pair01 "  " ss_checker store78
  = Done (true, {| m_first := Some 2; m_second := Some 3 |})
         (store78 ++ [Obj Str (FStr "  "); Obj Str (FStr "  ")]).
Proof.
  refine (proj2 (proj2
    (deserialize_blank_text (TP := str_str) pair01 "  " ss_checker
       (SetCheckers (MakePairChecker0 (MT := methods) (TP := str_str))
          (Some str_checker) (Some str_checker))
       str_checker str_checker store78 _ _ _))
    (Obj Str (FStr "  ")) (Obj Str (FStr "  ")) _ _ _ _);
    vm_compute; reflexivity.
Defined.

Lemma deserialize_single_token_witness :
  DeserializeFromString (TP := num_num) pair01 " 3 " nn_checker store78
  = DeserializeFromString (TP := num_num) pair01 "3 3" nn_checker store78.
Proof.
  apply (deserialize_single_token (TP := num_num) pair01 " 3 " "3").
  vm_compute; reflexivity.
Defined.

Lemma deserialize_then_serialize_witness :
  SerializeToString (MT := methods)
    {| m_first := Some 2; m_second := Some 3 |} nn_checker
    (store78 ++ [Obj Num (FNum 3); Obj Num (FNum 4)])
  = Done "3 4" (store78 ++ [Obj Num (FNum 3); Obj Num (FNum 4)]).
Proof.
  refine (deserialize_then_serialize (MT := methods) (TP := num_num)
            pair01 _ " 3  4 junk" "3" "4" ["junk"] nn_checker
            (SetCheckers (MakePairChecker0 (MT := methods) (TP := num_num))
               (Some num_checker) (Some num_checker))
            num_checker num_checker store78 _ _ _ _ _ _ _);
    try (vm_compute; reflexivity);
    intros o E; vm_compute in E; injection E as <-; vm_compute; reflexivity.
Defined.

(** A [PairValue<SubNum, SubNum>] whose class [SubNum] inherits [Copy]
    from [Num]: the copy has no members. *)
Lemma copy_drops_foreign_member_witness :
  exists copy h',
    Copy (MT := inherited_copy) (TP := sub_sub) pair01
      [Obj SubNum (FNum 7); Obj SubNum (FNum 8)] = Done copy h' /\
    m_first copy = None /\
    Get (TP := sub_sub) copy h' = Fault /\
    (forall checker,
       SerializeToString (MT := inherited_copy) copy checker h' = Fault).
Proof.
  exact (copy_drops_foreign_member (OM := objects) (MT := inherited_copy)
           (TP := sub_sub) pair01
           [@Obj objects SubNum (FNum 7); @Obj objects SubNum (FNum 8)] 0 1
           (@Obj objects SubNum (FNum 7)) (@Obj objects SubNum (FNum 8))
           eq_refl eq_refl eq_refl eq_refl eq_refl).
Defined.

Lemma deserialize_with_made_checker_witness :
  exists ok this' h',
    DeserializeFromString (TP := num_num) pair01 "3 x"
      (Some (SetCheckers (MakePairChecker0 (MT := methods) (TP := num_num))
               (Some num_checker) (Some num_checker))) store78
    = Done (ok, this') h' /\
    (ok = true <->
     exists o1 o2,
       CreateValidValue num_checker (fst (read_two "3 x")) = Some o1 /\
       derives (dyn o1) Num = true /\
       CreateValidValue num_checker (snd (read_two "3 x")) = Some o2 /\
       derives (dyn o2) Num = true).
Proof.
  exact (deserialize_with_made_checker (MT := methods) (TP := num_num)
           pair01 "3 x" num_checker num_checker _ [] store78 eq_refl).
Defined.

Lemma print_pair_unambiguous_witness :
  print_pair string_of_num string_of_num "p = " (3, 25) = "p = (3,25)" /\
  (print_pair string_of_num string_of_num "p = " (3, 25)
     = print_pair string_of_num string_of_num "p = " (3, 25) ->
   string_of_num 3 = string_of_num 3 /\ string_of_num 25 = string_of_num 25).
Proof.
  split; [vm_compute; reflexivity|].
  apply (print_pair_unambiguous string_of_num string_of_num "p = "
           (3, 25) (3, 25)); vm_compute; reflexivity.
Defined.
